(** * Smart Task Planner ([app.py]): response extraction, validation,
      persistence gateway and plan display.

    The development embeds the functions of [app.py] in Gallina.  Python
    values are given by an inductive type, Python exceptions by an error
    monad, and the two external collaborators (the generative model and
    the remote table) are parameters of the functions that call them. *)

From Stdlib Require Import Ascii String DecimalString.
From Stdlib Require Import List ZArith NArith Lia Bool Permutation Sorted.
Import ListNotations.

Set Warnings "-register-all".

(* ================================================================== *)
(** ** Python [str]                                                    *)
(* ================================================================== *)

(** A Python [str] is a sequence of Unicode code points. *)
Definition str := list N.

Definition code (c : ascii) : N := N_of_ascii c.
Arguments code c%_char.

(** [lit "abc"] is the [str] written as the literal ["abc"]. *)
Fixpoint lit (s : string) : str :=
  match s with
  | EmptyString => []
  | String c s' => code c :: lit s'
  end.
Arguments lit s%_string.

(** The line break ["\n"] and the double quote, as characters. *)
Definition LF : N := 10%N.
Definition DQ : N := 34%N.
Definition nl : str := [LF].
Definition dq : str := [DQ].

(** [a == b] on [str]. *)
Fixpoint str_eqb (a b : str) : bool :=
  match a, b with
  | [], [] => true
  | x :: a', y :: b' => N.eqb x y && str_eqb a' b'
  | _, _ => false
  end.

(** [s.startswith(prefix)]. *)
Fixpoint startswith (s prefix : str) {struct prefix} : bool :=
  match prefix with
  | [] => true
  | p :: prefix' =>
      match s with
      | c :: s' => N.eqb p c && startswith s' prefix'
      | [] => false
      end
  end.

(** Offset of the first occurrence of [sub] in [s], scanning from the
    left; [None] when there is none. *)
Fixpoint find_first (s sub : str) : option nat :=
  if startswith s sub then Some 0%nat
  else match s with
       | [] => None
       | _ :: s' => option_map S (find_first s' sub)
       end.

(** [sub in s]. *)
Definition contains (s sub : str) : bool :=
  match find_first s sub with Some _ => true | None => false end.

(** [s.find(sub, start)]: a negative [start] counts from the end, the
    result is the lowest index at or after [start] where [sub] occurs,
    and [-1] when there is none. *)
Definition find (s sub : str) (start : Z) : Z :=
  let len := Z.of_nat (length s) in
  let start := if (start <? 0)%Z then Z.max 0 (start + len) else start in
  if (len <? start)%Z then (-1)%Z
  else match find_first (skipn (Z.to_nat start) s) sub with
       | Some i => (start + Z.of_nat i)%Z
       | None => (-1)%Z
       end.

(** Index adjustment of a slice bound: negative bounds count from the
    end, and every bound is clipped to [0 .. len]. *)
Definition adjust_index (len i : Z) : Z :=
  if (i <? 0)%Z then Z.max 0 (i + len) else Z.min i len.

(** [s[start:stop]]. *)
Definition slice (s : str) (start stop : Z) : str :=
  let len := Z.of_nat (length s) in
  let lo := adjust_index len start in
  let hi := adjust_index len stop in
  firstn (Z.to_nat (hi - lo)) (skipn (Z.to_nat lo) s).

(** [c.isspace()] for one character: the characters [str.strip()]
    removes. *)
Definition isspace (c : N) : bool :=
  ((9 <=? c) && (c <=? 13) || (28 <=? c) && (c <=? 32)
   || (c =? 133) || (c =? 160) || (c =? 5760)
   || (8192 <=? c) && (c <=? 8202)
   || (c =? 8232) || (c =? 8233) || (c =? 8239) || (c =? 8287)
   || (c =? 12288))%N.

Fixpoint lstrip (s : str) : str :=
  match s with
  | [] => []
  | c :: s' => if isspace c then lstrip s' else s
  end.

Definition rstrip (s : str) : str := rev (lstrip (rev s)).

(** [s.strip()]. *)
Definition strip (s : str) : str := rstrip (lstrip s).

(** [s.split(sep)] for a separator of one character (the program only
    splits on the line break). *)
Fixpoint split (s : str) (sep : N) : list str :=
  match s with
  | [] => [[]]
  | c :: s' =>
      if N.eqb c sep then [] :: split s' sep
      else match split s' sep with
           | l :: ls => (c :: l) :: ls
           | [] => [[c]]
           end
  end.

(** [sep.join(parts)]. *)
Fixpoint join (sep : str) (parts : list str) : str :=
  match parts with
  | [] => []
  | p :: rest =>
      match rest with
      | [] => p
      | _ :: _ => p ++ sep ++ join sep rest
      end
  end.

(** [str(n)] for an [int]. *)
Definition str_of_int (n : Z) : str := lit (NilZero.string_of_int (Z.to_int n)).


(* ================================================================== *)
(** ** Python values, exceptions                                       *)
(* ================================================================== *)

(** The values that [json.loads] produces and that the program builds:
    [None], [bool], [int], [float], [str], [list] and [dict].  A [float]
    is kept as the text of its literal: the program never computes with
    one.  A [dict] is the sequence of its entries in insertion order. *)
Inductive value : Type :=
| VNone
| VBool (b : bool)
| VInt (n : Z)
| VFloat (literal : str)
| VStr (s : str)
| VList (items : list value)
| VDict (entries : list (str * value)).

Definition dict := list (str * value).

(** [d.get(key)]: the value under [key], if any. *)
Fixpoint dict_get (d : dict) (key : str) : option value :=
  match d with
  | [] => None
  | (k, v) :: d' => if str_eqb k key then Some v else dict_get d' key
  end.

(** [key in d] for a [dict]. *)
Definition dict_has (d : dict) (key : str) : bool :=
  match dict_get d key with Some _ => true | None => false end.

(** [isinstance(v, list)]. *)
Definition isinstance_list (v : value) : bool :=
  match v with VList _ => true | _ => false end.

Definition isinstance_dict (v : value) : bool :=
  match v with VDict _ => true | _ => false end.

(** [item == key] for a [str] [key]: only a [str] equals a [str]. *)
Definition eq_str (item : value) (key : str) : bool :=
  match item with VStr s => str_eqb s key | _ => false end.

(** Exception classes the program distinguishes (all derive from
    [Exception]); [exn_text] is [str(e)]. *)
Inductive exn_class : Type :=
| JSONDecodeError
| TypeError
| KeyError
| OtherError (name : str).

Record exn : Type := mkExn { exn_cls : exn_class; exn_text : str }.

(** A computation either returns a value or raises. *)
Inductive outcome (A : Type) : Type :=
| Return (a : A)
| Raise (e : exn).
Arguments Return {A} a.
Arguments Raise {A} e.

Definition bind {A B : Type} (m : outcome A) (k : A -> outcome B) : outcome B :=
  match m with
  | Return a => k a
  | Raise e => Raise e
  end.

Notation "x <- m ;; k" := (bind m (fun x => k))
  (at level 61, m at next level, right associativity).

(** [try: body  except <classes> as e: handler e]. *)
Definition try_except {A : Type} (body : outcome A) (catches : exn -> bool)
    (handler : exn -> outcome A) : outcome A :=
  match body with
  | Return a => Return a
  | Raise e => if catches e then handler e else Raise e
  end.

(** [except Exception]. *)
Definition any_exception (e : exn) : bool := true.

(** [except json.JSONDecodeError]. *)
Definition is_JSONDecodeError (e : exn) : bool :=
  match exn_cls e with JSONDecodeError => true | _ => false end.

(** The two ways the validation line can raise [TypeError]. *)
Inductive type_error : Type :=
| NotIterable (v : value)         (* ["plan" in v] *)
| BadSubscript (v : value).       (* [v["plan"]]   *)

(* ================================================================== *)
(** ** Core function: [generate_plan]                                  *)
(* ================================================================== *)

Definition q (s : str) : str := dq ++ s ++ dq.

(** Every line followed by a line break. *)
Definition unlines (ls : list str) : str := concat (map (fun l => l ++ nl) ls).

(** The f-string of lines 113-139. *)
Definition build_prompt (goal : str) : str :=
  nl ++ unlines
  [ lit "You are an expert project manager AI. Your task is to break down the user's goal into a structured action plan.";
    lit "Goal: " ++ q goal;
    lit "";
    lit "Return ONLY a valid JSON object with this exact structure:";
    lit "{";
    lit "  " ++ q (lit "plan") ++ lit ": [";
    lit "    {";
    lit "      " ++ q (lit "task_id") ++ lit ": 1,";
    lit "      " ++ q (lit "task_name") ++ lit ": " ++ q (lit "Task name here") ++ lit ",";
    lit "      " ++ q (lit "description") ++ lit ": " ++ q (lit "Detailed description here") ++ lit ",";
    lit "      " ++ q (lit "dependencies") ++ lit ": [],";
    lit "      " ++ q (lit "duration_days") ++ lit ": 5";
    lit "    }";
    lit "  ]";
    lit "}";
    lit "";
    lit "Rules:";
    lit "- task_id: integer starting from 1";
    lit "- task_name: concise string";
    lit "- description: detailed string";
    lit "- dependencies: array of task_id integers (empty array if none)";
    lit "- duration_days: integer";
    lit "";
    lit "Provide a complete, logical breakdown of the goal into sequential tasks.";
    lit "Return ONLY the JSON, no other text or markdown formatting." ].

(** [genai.GenerationConfig(...)]; the two [float] arguments are kept as
    their literals. *)
Record generation_config : Type := mkConfig {
  temperature : str;
  top_p : str;
  top_k : Z;
  max_output_tokens : Z
}.

(** One round trip to the generative model: the model identifier, the
    prompt and the generation parameters. *)
Record ai_call : Type := mkCall {
  call_model : str;
  call_contents : str;
  call_config : generation_config
}.

Definition json_fence : str := lit "```json".
Definition fence : str := lit "```".

(** The loop of lines 167-172: [in_code_block] and [json_lines] are the
    loop's two variables. *)
Fixpoint scan_lines (lines : list str) (in_code_block : bool)
    (json_lines : list str) : list str :=
  match lines with
  | [] => json_lines
  | line :: rest =>
      if startswith line fence then scan_lines rest (negb in_code_block) json_lines
      else if in_code_block then scan_lines rest in_code_block (json_lines ++ [line])
      else scan_lines rest in_code_block json_lines
  end.

(** Lines 159-173, on the trimmed response text: the string that is
    handed to the JSON parser. *)
Definition extract_json (response_text : str) : str :=
  if contains response_text json_fence then
    let start := (find response_text json_fence 0 + 7)%Z in
    let end_ := find response_text fence start in
    strip (slice response_text start end_)
  else if startswith response_text fence then
    let lines := split response_text LF in
    let json_lines := scan_lines lines false [] in
    strip (join nl json_lines)
  else response_text.

(** Lines 156-173 as a function of [response.text]. *)
Definition candidate (raw : str) : str := extract_json (strip raw).

Definition error_dict (msg : str) : value :=
  VDict [(lit "error", VStr msg)].

Definition error_raw_dict (msg raw : str) : value :=
  VDict [(lit "error", VStr msg); (lit "raw", VStr raw)].

Definition empty_goal_msg : str := lit "Goal cannot be empty.".
Definition unexpected_format_msg : str := lit "AI returned JSON in an unexpected format.".
Definition invalid_json_prefix : str := lit "AI failed to return valid JSON: ".
Definition ai_error_prefix : str := lit "An error occurred while calling the AI model: ".

Section GeneratePlan.

(** [json.loads], from the Python standard library. *)
Variable json_loads : str -> outcome value.

(** The text of a [TypeError] raised by the interpreter. *)
Variable type_error_text : type_error -> str.

(** The generative-model collaborator: building the model object,
    [generate_content] and reading [response.text], any of which may
    raise. *)
Variable generate_content : ai_call -> outcome str.

(** ["plan" in container]. *)
Definition py_in (key : str) (container : value) : outcome bool :=
  match container with
  | VDict d => Return (dict_has d key)
  | VList items => Return (existsb (fun item => eq_str item key) items)
  | VStr s => Return (contains s key)
  | _ => Raise (mkExn TypeError (type_error_text (NotIterable container)))
  end.

(** [container["plan"]]. *)
Definition py_getitem (container : value) (key : str) : outcome value :=
  match container with
  | VDict d =>
      match dict_get d key with
      | Some v => Return v
      | None => Raise (mkExn KeyError (lit "'" ++ key ++ lit "'"))
      end
  | _ => Raise (mkExn TypeError (type_error_text (BadSubscript container)))
  end.

(** The condition of line 178, with the short-circuit of [and]. *)
Definition has_plan_list (plan_json : value) : outcome bool :=
  present <- py_in (lit "plan") plan_json ;;
  if present : bool then
    plan <- py_getitem plan_json (lit "plan") ;;
    Return (isinstance_list plan)
  else Return false.

(** Lines 175-183: the inner [try]. *)
Definition parse_and_validate (response_text : str) : outcome value :=
  try_except
    (plan_json <- json_loads response_text ;;
     ok <- has_plan_list plan_json ;;
     if ok : bool then Return plan_json
     else Return (error_raw_dict unexpected_format_msg response_text))
    is_JSONDecodeError
    (fun je => Return (error_raw_dict (invalid_json_prefix ++ exn_text je) response_text)).

Definition the_config : generation_config :=
  mkConfig (lit "0.3") (lit "0.95") 40 8192.

(** [generate_plan(goal, model_name)]: the value returned (or the
    exception raised) and the calls made to the model, in order. *)
Definition generate_plan (goal model_name : str) : outcome value * list ai_call :=
  match goal with
  | [] => (Return (error_dict empty_goal_msg), [])
  | _ :: _ =>
      let prompt := build_prompt goal in
      let call := mkCall model_name prompt the_config in
      (try_except
         (text <- generate_content call ;;
          let response_text := strip text in
          let response_text := extract_json response_text in
          parse_and_validate response_text)
         any_exception
         (fun e => Return (error_dict (ai_error_prefix ++ exn_text e))),
       [call])
  end.

End GeneratePlan.

(* ================================================================== *)
(** ** A reference [json.loads]                                        *)
(* ================================================================== *)

(** A decoder for the JSON grammar after the standard library's
    [json.decoder] (CPython 3.11), error texts and positions included:
    it is what the parameter [json_loads] is instantiated with when the
    program is run on a concrete text.  [fuel] bounds the depth of the
    recursion; running out of it is reported as [RecursionError]. *)
Module Ref.

Inductive presult (A : Type) : Type :=
| POk (a : A) (rest : str) (pos : nat)
| PErr (msg : str) (pos : nat)
| PRaise (e : exn).
Arguments POk {A} a rest pos.
Arguments PErr {A} msg pos.
Arguments PRaise {A} e.

Definition pmap {A B : Type} (f : A -> B) (r : presult A) : presult B :=
  match r with
  | POk a rest pos => POk (f a) rest pos
  | PErr msg pos => PErr msg pos
  | PRaise e => PRaise e
  end.

Definition is_ws (c : N) : bool :=
  ((c =? 32) || (c =? 9) || (c =? 10) || (c =? 13))%N.

Fixpoint skip_ws (s : str) (pos : nat) : str * nat :=
  match s with
  | c :: s' => if is_ws c then skip_ws s' (S pos) else (s, pos)
  | [] => ([], pos)
  end.

Definition is_digit (c : N) : bool := ((48 <=? c) && (c <=? 57))%N.

Fixpoint span_digits (s : str) : str * str :=
  match s with
  | c :: s' =>
      if is_digit c then let (ds, rest) := span_digits s' in (c :: ds, rest)
      else ([], s)
  | [] => ([], [])
  end.

Definition int_of_digits (ds : str) : Z :=
  fold_left (fun acc d => (acc * 10 + Z.of_N (d - 48))%Z) ds 0%Z.

Definition hex_value (c : N) : option N :=
  (if (48 <=? c) && (c <=? 57) then Some (c - 48)
   else if (97 <=? c) && (c <=? 102) then Some (c - 87)
   else if (65 <=? c) && (c <=? 70) then Some (c - 55)
   else None)%N.

(** The four hexadecimal digits of a [\uXXXX] escape; the scanner wants
    a character after them. *)
Definition hex4 (s : str) : option N :=
  match s with
  | a :: b :: c :: d :: _ :: _ =>
      match hex_value a, hex_value b, hex_value c, hex_value d with
      | Some x, Some y, Some z, Some w => Some (((x * 16 + y) * 16 + z) * 16 + w)%N
      | _, _, _, _ => None
      end
  | _ => None
  end.

Definition unescape (c : N) : option N :=
  (if c =? code "034" then Some (code "034")
   else if c =? code "\" then Some (code "\")
   else if c =? code "/" then Some (code "/")
   else if c =? code "b" then Some 8
   else if c =? code "f" then Some 12
   else if c =? code "n" then Some 10
   else if c =? code "r" then Some 13
   else if c =? code "t" then Some 9
   else None)%N.

(** The body of a string literal, after its opening quote at index
    [begin]; [acc] holds the characters read so far, last first. *)
Fixpoint scanstring (s : str) (pos begin : nat) (acc : str) : presult str :=
  match s with
  | [] => PErr (lit "Unterminated string starting at") begin
  | c :: s' =>
      if (c =? DQ)%N then POk (rev acc) s' (S pos)
      else if (c =? code "\")%N then
        match s' with
        | [] => PErr (lit "Unterminated string starting at") begin
        | e :: s2 =>
            if (e =? code "u")%N then
              match hex4 s2, s2 with
              | Some uni, _ :: _ :: _ :: _ :: s6 =>
                  match s6 with
                  | b2 :: u2 :: s8 =>
                      match hex4 s8, s8 with
                      | Some uni2, _ :: _ :: _ :: _ :: s12 =>
                          if ((55296 <=? uni) && (uni <=? 56319) && (b2 =? code "\")
                              && (u2 =? code "u") && (56320 <=? uni2) && (uni2 <=? 57343))%N
                          then scanstring s12 (pos + 12) begin
                                 ((65536 + ((uni - 55296) * 1024 + (uni2 - 56320)))%N :: acc)
                          else scanstring s6 (pos + 6) begin (uni :: acc)
                      | _, _ => scanstring s6 (pos + 6) begin (uni :: acc)
                      end
                  | _ => scanstring s6 (pos + 6) begin (uni :: acc)
                  end
              | _, _ => PErr (lit "Invalid \uXXXX escape") (S pos)
              end
            else
              match unescape e with
              | Some ch => scanstring s2 (pos + 2) begin (ch :: acc)
              | None => PErr (lit "Invalid \escape") pos
              end
        end
      else if (c <? 32)%N then PErr (lit "Invalid control character at") pos
      else scanstring s' (S pos) begin (c :: acc)
  end.

Definition recursion_error : exn :=
  mkExn (OtherError (lit "RecursionError")) (lit "maximum recursion depth exceeded").

(** [int(text)] refuses more than 4300 digits. *)
Definition int_max_str_digits : nat := 4300.

Definition too_many_digits (n : nat) : exn :=
  mkExn (OtherError (lit "ValueError"))
    (lit "Exceeds the limit (4300 digits) for integer string conversion: value has "
       ++ str_of_int (Z.of_nat n)
       ++ lit " digits; use sys.set_int_max_str_digits() to increase the limit").

(** The number at the head of [s], if there is one: an [int] when it
    has neither fraction nor exponent, otherwise a [float]. *)
Definition scan_number (s : str) (pos : nat) : option (presult value) :=
  let '(sign, s1) :=
    match s with
    | c :: r => if (c =? code "-")%N then ([c], r) else ([], s)
    | [] => ([], s)
    end in
  let int_part :=
    match s1 with
    | d :: r =>
        if (d =? code "0")%N then Some ([d], r)
        else if is_digit d then Some (span_digits s1)
        else None
    | [] => None
    end in
  match int_part with
  | None => None
  | Some (ds, rest) =>
      let '(frac, rest1) :=
        match rest with
        | c :: r =>
            if (c =? code ".")%N then
              match span_digits r with
              | ([], _) => ([], rest)
              | (fs, r') => (c :: fs, r')
              end
            else ([], rest)
        | [] => ([], rest)
        end in
      let '(expo, rest2) :=
        match rest1 with
        | c :: r =>
            if ((c =? code "e") || (c =? code "E"))%N then
              let '(sg, r1) :=
                match r with
                | g :: r' =>
                    if ((g =? code "+") || (g =? code "-"))%N then ([g], r') else ([], r)
                | [] => ([], r)
                end in
              match span_digits r1 with
              | ([], _) => ([], rest1)
              | (es, r') => (c :: sg ++ es, r')
              end
            else ([], rest1)
        | [] => ([], rest1)
        end in
      let text := sign ++ ds ++ frac ++ expo in
      Some
        match frac, expo with
        | [], [] =>
            if (int_max_str_digits <? length ds)%nat
            then PRaise (too_many_digits (length ds))
            else POk (VInt (match sign with
                            | [] => int_of_digits ds
                            | _ => - int_of_digits ds
                            end))
                   rest2 (pos + length text)%nat
        | _, _ => POk (VFloat text) rest2 (pos + length text)%nat
        end
  end.

(** A word such as [null] at the head of [s]. *)
Definition keyword (s : str) (pos : nat) (w : str) (v : value) : option (presult value) :=
  if startswith s w then Some (POk v (skipn (length w) s) (pos + length w)%nat) else None.

Definition first_some {A : Type} (l : list (option A)) : option A :=
  fold_right (fun o r => match o with Some a => Some a | None => r end) None l.

(** [d[key] = v] on the entries of a [dict]. *)
Fixpoint dict_set (d : dict) (key : str) (v : value) : dict :=
  match d with
  | [] => [(key, v)]
  | (k, w) :: d' => if str_eqb k key then (k, v) :: d' else (k, w) :: dict_set d' key v
  end.

Fixpoint parse_value (fuel : nat) (s : str) (pos : nat) : presult value :=
  match fuel with
  | O => PRaise recursion_error
  | S fuel' =>
      match s with
      | [] => PErr (lit "Expecting value") pos
      | c :: s' =>
          if (c =? DQ)%N then pmap VStr (scanstring s' (S pos) pos [])
          else if (c =? code "{")%N then
            let (s1, p1) := skip_ws s' (S pos) in
            match s1 with
            | c1 :: s2 =>
                if (c1 =? code "}")%N then POk (VDict []) s2 (S p1)
                else if (c1 =? DQ)%N then parse_members fuel' s1 p1 []
                else PErr (lit "Expecting property name enclosed in double quotes") p1
            | [] => PErr (lit "Expecting property name enclosed in double quotes") p1
            end
          else if (c =? code "[")%N then
            let (s1, p1) := skip_ws s' (S pos) in
            match s1 with
            | c1 :: s2 =>
                if (c1 =? code "]")%N then POk (VList []) s2 (S p1)
                else parse_elems fuel' s1 p1 []
            | [] => PErr (lit "Expecting value") p1
            end
          else
            match first_some
                    [ keyword s pos (lit "null") VNone;
                      keyword s pos (lit "true") (VBool true);
                      keyword s pos (lit "false") (VBool false);
                      scan_number s pos;
                      keyword s pos (lit "NaN") (VFloat (lit "NaN"));
                      keyword s pos (lit "Infinity") (VFloat (lit "Infinity"));
                      keyword s pos (lit "-Infinity") (VFloat (lit "-Infinity")) ] with
            | Some r => r
            | None => PErr (lit "Expecting value") pos
            end
      end
  end

with parse_elems (fuel : nat) (s : str) (pos : nat) (acc : list value) : presult value :=
  match fuel with
  | O => PRaise recursion_error
  | S fuel' =>
      match parse_value fuel' s pos with
      | POk v rest p =>
          let (r1, p1) := skip_ws rest p in
          match r1 with
          | c :: r2 =>
              if (c =? code "]")%N then POk (VList (rev (v :: acc))) r2 (S p1)
              else if (c =? code ",")%N then
                let (r3, p3) := skip_ws r2 (S p1) in
                parse_elems fuel' r3 p3 (v :: acc)
              else PErr (lit "Expecting ',' delimiter") p1
          | [] => PErr (lit "Expecting ',' delimiter") p1
          end
      | PErr msg p => PErr msg p
      | PRaise e => PRaise e
      end
  end

with parse_members (fuel : nat) (s : str) (pos : nat) (acc : dict) : presult value :=
  match fuel with
  | O => PRaise recursion_error
  | S fuel' =>
      match scanstring (tl s) (S pos) pos [] with
      | POk key rest p =>
          let (r1, p1) := skip_ws rest p in
          match r1 with
          | c :: r2 =>
              if (c =? code ":")%N then
                let (r3, p3) := skip_ws r2 (S p1) in
                match parse_value fuel' r3 p3 with
                | POk v r4 p4 =>
                    let (r5, p5) := skip_ws r4 p4 in
                    match r5 with
                    | c5 :: r6 =>
                        if (c5 =? code "}")%N then POk (VDict (dict_set acc key v)) r6 (S p5)
                        else if (c5 =? code ",")%N then
                          let (r7, p7) := skip_ws r6 (S p5) in
                          match r7 with
                          | c7 :: _ =>
                              if (c7 =? DQ)%N then parse_members fuel' r7 p7 (dict_set acc key v)
                              else PErr (lit "Expecting property name enclosed in double quotes") p7
                          | [] => PErr (lit "Expecting property name enclosed in double quotes") p7
                          end
                        else PErr (lit "Expecting ',' delimiter") p5
                    | [] => PErr (lit "Expecting ',' delimiter") p5
                    end
                | PErr msg p' => PErr msg p'
                | PRaise e => PRaise e
                end
              else PErr (lit "Expecting ':' delimiter") p1
          | [] => PErr (lit "Expecting ':' delimiter") p1
          end
      | PErr msg p => PErr msg p
      | PRaise e => PRaise e
      end
  end.

(** The text of a [JSONDecodeError]: message, line, column and index. *)
Definition decode_error (doc msg : str) (pos : nat) : exn :=
  let before := firstn pos doc in
  let lineno := S (count_occ N.eq_dec before LF) in
  let colno := S (length (last (split before LF) [])) in
  mkExn JSONDecodeError
    (msg ++ lit ": line " ++ str_of_int (Z.of_nat lineno)
         ++ lit " column " ++ str_of_int (Z.of_nat colno)
         ++ lit " (char " ++ str_of_int (Z.of_nat pos) ++ lit ")").

Definition BOM : N := 65279%N.

(** [json.loads(s)]. *)
Definition loads (s : str) : outcome value :=
  if startswith s [BOM]
  then Raise (decode_error s (lit "Unexpected UTF-8 BOM (decode using utf-8-sig)") 0)
  else
  let (s0, p0) := skip_ws s 0 in
  match parse_value (2 * length s + 2) s0 p0 with
  | POk v rest p =>
      match skip_ws rest p with
      | ([], _) => Return v
      | (_ :: _, pe) => Raise (decode_error s (lit "Extra data") pe)
      end
  | PErr msg p => Raise (decode_error s msg p)
  | PRaise e => Raise e
  end.

End Ref.

(* ================================================================== *)
(** ** Database functions                                              *)
(* ================================================================== *)

(** The request that a chain of builder calls on the Supabase client
    describes. *)
Inductive operation : Type :=
| OpInsert (row : value)
| OpSelect (columns : str)
| OpDelete.

Inductive row_filter : Type :=
| Ilike (column pattern : str)
| Eq (column : str) (v : value).

Record query : Type := mkQuery {
  q_table : str;
  q_op : operation;
  q_filters : list row_filter;
  q_order : option (str * bool);
  q_limit : option Z
}.

(** The builder methods used by the program. *)
Module Supabase.
Definition table (name : str) : str := name.
Definition insert (t : str) (data : value) : query := mkQuery t (OpInsert data) [] None None.
Definition select (t : str) (columns : str) : query := mkQuery t (OpSelect columns) [] None None.
Definition delete (t : str) : query := mkQuery t OpDelete [] None None.
Definition order (qy : query) (column : str) (desc : bool) : query :=
  mkQuery (q_table qy) (q_op qy) (q_filters qy) (Some (column, desc)) (q_limit qy).
Definition limit (qy : query) (n : Z) : query :=
  mkQuery (q_table qy) (q_op qy) (q_filters qy) (q_order qy) (Some n).
Definition ilike (qy : query) (column pattern : str) : query :=
  mkQuery (q_table qy) (q_op qy) (q_filters qy ++ [Ilike column pattern]) (q_order qy) (q_limit qy).
Definition eq (qy : query) (column : str) (v : value) : query :=
  mkQuery (q_table qy) (q_op qy) (q_filters qy ++ [Eq column v]) (q_order qy) (q_limit qy).
End Supabase.

Definition task_plans : str := lit "task_plans".

Definition success_data (data : value) : value :=
  VDict [(lit "success", VBool true); (lit "data", data)].

Definition success_only : value :=
  VDict [(lit "success", VBool true)].

Definition failure (e : exn) : value :=
  VDict [(lit "success", VBool false); (lit "error", VStr (exn_text e))].

Section Database.

(** The remote store, and [execute()]: the round trip that either
    returns [result.data] or raises, and leaves the store in a new
    state. *)
Variable Store : Type.
Variable execute : query -> Store -> outcome value * Store.

Definition save_plan_to_db (goal model_name : str) (plan_json : value)
    (db : Store) : outcome value * Store :=
  let data := VDict [ (lit "goal", VStr goal);
                      (lit "model_used", VStr model_name);
                      (lit "plan_json", plan_json) ] in
  match execute (Supabase.insert (Supabase.table task_plans) data) db with
  | (Return result_data, db') => (Return (success_data result_data), db')
  | (Raise e, db') => (Return (failure e), db')
  end.

Definition get_recent_plans (limit : Z) (db : Store) : outcome value * Store :=
  match execute
          (Supabase.limit
             (Supabase.order
                (Supabase.select (Supabase.table task_plans) (lit "*"))
                (lit "created_at") true)
             limit) db with
  | (Return result_data, db') => (Return (success_data result_data), db')
  | (Raise e, db') => (Return (failure e), db')
  end.

Definition search_plans_by_goal (search_term : str) (db : Store) : outcome value * Store :=
  match execute
          (Supabase.order
             (Supabase.ilike
                (Supabase.select (Supabase.table task_plans) (lit "*"))
                (lit "goal") (lit "%" ++ search_term ++ lit "%"))
             (lit "created_at") true) db with
  | (Return result_data, db') => (Return (success_data result_data), db')
  | (Raise e, db') => (Return (failure e), db')
  end.

Definition delete_plan (plan_id : value) (db : Store) : outcome value * Store :=
  match execute
          (Supabase.eq (Supabase.delete (Supabase.table task_plans)) (lit "id") plan_id)
          db with
  | (Return _, db') => (Return success_only, db')
  | (Raise e, db') => (Return (failure e), db')
  end.

End Database.

Arguments save_plan_to_db {Store} execute goal model_name plan_json db.
Arguments get_recent_plans {Store} execute limit db.
Arguments search_plans_by_goal {Store} execute search_term db.
Arguments delete_plan {Store} execute plan_id db.

(* ================================================================== *)
(** ** An in-memory table                                              *)
(* ================================================================== *)

(** A stand-in for the remote table, to run the database functions on:
    rows in insertion order, identifiers and creation times drawn from a
    counter, and a switch that makes every round trip raise. *)
Module Mock.

Record store : Type := mkStore {
  rows : list value;
  next_id : Z;
  online : bool
}.

Fixpoint value_eqb (a b : value) : bool :=
  match a, b with
  | VNone, VNone => true
  | VBool x, VBool y => Bool.eqb x y
  | VInt x, VInt y => Z.eqb x y
  | VFloat x, VFloat y => str_eqb x y
  | VStr x, VStr y => str_eqb x y
  | VList xs, VList ys =>
      (fix go (xs ys : list value) : bool :=
         match xs, ys with
         | [], [] => true
         | x :: xs', y :: ys' => value_eqb x y && go xs' ys'
         | _, _ => false
         end) xs ys
  | VDict xs, VDict ys =>
      (fix go (xs ys : list (str * value)) : bool :=
         match xs, ys with
         | [], [] => true
         | (k, x) :: xs', (k', y) :: ys' => str_eqb k k' && value_eqb x y && go xs' ys'
         | _, _ => false
         end) xs ys
  | _, _ => false
  end.

Definition lower (c : N) : N :=
  (if (65 <=? c) && (c <=? 90) then c + 32 else c)%N.

Definition field (row : value) (column : str) : option value :=
  match row with VDict d => dict_get d column | _ => None end.

(** [%term%] matches the rows whose column holds [term] somewhere,
    letter case aside. *)
Definition matches (row : value) (f : row_filter) : bool :=
  match f with
  | Eq column v =>
      match field row column with Some w => value_eqb w v | None => false end
  | Ilike column pattern =>
      match field row column with
      | Some (VStr s) =>
          contains (map lower s) (map lower (removelast (tl pattern)))
      | _ => false
      end
  end.

Definition selected (qy : query) (row : value) : bool :=
  forallb (matches row) (q_filters qy).

Definition unavailable : exn :=
  mkExn (OtherError (lit "ConnectError")) (lit "connection refused").

Definition execute (qy : query) (db : store) : outcome value * store :=
  if negb (online db) then (Raise unavailable, db)
  else
    match q_op qy with
    | OpInsert (VDict d) =>
        let row := VDict ((lit "id", VInt (next_id db))
                          :: (lit "created_at", VInt (next_id db)) :: d) in
        (Return (VList [row]),
         mkStore (rows db ++ [row]) (next_id db + 1) (online db))
    | OpInsert _ =>
        (Raise (mkExn (OtherError (lit "APIError")) (lit "row is not an object")), db)
    | OpSelect _ =>
        let found := filter (selected qy) (rows db) in
        let ordered := match q_order qy with
                       | Some (_, true) => rev found
                       | _ => found
                       end in
        let capped := match q_limit qy with
                      | Some n => firstn (Z.to_nat n) ordered
                      | None => ordered
                      end in
        (Return (VList capped), db)
    | OpDelete =>
        (Return (VList (filter (selected qy) (rows db))),
         mkStore (filter (fun r => negb (selected qy r)) (rows db))
                 (next_id db) (online db))
    end.

End Mock.

(* ================================================================== *)
(** ** Plan display                                                    *)
(* ================================================================== *)

(** What the display calls put on the page. *)
Inductive widget : Type :=
| Warning (text : str)
| Markdown (text : str)
| Expander (label : str) (body : list widget).

(** The stable sort by an integer key: what [sorted] returns when every
    key is an [int]. *)
Fixpoint insert_sorted {A : Type} (key : A -> Z) (x : A) (l : list A) : list A :=
  match l with
  | [] => [x]
  | y :: l' => if (key x <=? key y)%Z then x :: l else y :: insert_sorted key x l'
  end.

Fixpoint sorted {A : Type} (key : A -> Z) (l : list A) : list A :=
  match l with
  | [] => []
  | x :: l' => insert_sorted key x (sorted key l')
  end.

(** [type(x).__name__]. *)
Definition type_name (v : value) : str :=
  match v with
  | VNone => lit "NoneType"
  | VBool _ => lit "bool"
  | VInt _ => lit "int"
  | VFloat _ => lit "float"
  | VStr _ => lit "str"
  | VList _ => lit "list"
  | VDict _ => lit "dict"
  end.

(** The tasks reach [display_plan] as they were decoded: nothing has
    checked that they form a list, that its elements are objects, or
    what the objects hold.  The function is therefore modelled on every
    value, with the exceptions the built-in operations raise. *)

Definition AttributeError : exn_class := OtherError (lit "AttributeError").

(** The [AttributeError] of [x.get] when [x] is not a [dict]. *)
Definition no_attribute_get (x : value) : exn :=
  mkExn AttributeError (lit "'" ++ type_name x ++ lit "' object has no attribute 'get'").

(** The [TypeError] of going through a value that is not iterable. *)
Definition not_iterable (x : value) : exn :=
  mkExn TypeError (lit "'" ++ type_name x ++ lit "' object is not iterable").

(** [x.get(key, default)]. *)
Definition py_get (x : value) (key : str) (default : value) : outcome value :=
  match x with
  | VDict d => Return (match dict_get d key with Some v => v | None => default end)
  | _ => Raise (no_attribute_get x)
  end.

(** The elements that [sorted], [map] and [for] go through: the items
    of a [list], the characters of a [str], the keys of a [dict]. *)
Definition py_iter (x : value) : outcome (list value) :=
  match x with
  | VList items => Return items
  | VStr s => Return (map (fun c => VStr [c]) s)
  | VDict d => Return (map (fun entry => VStr (fst entry)) d)
  | VNone | VBool _ | VInt _ | VFloat _ => Raise (not_iterable x)
  end.

(** [f] applied to the elements in turn, up to the first exception. *)
Fixpoint for_each {A B : Type} (f : A -> outcome B) (l : list A) : outcome (list B) :=
  match l with
  | [] => Return []
  | x :: l' => y <- f x ;; ys <- for_each f l' ;; Return (y :: ys)
  end.

(** A key that is an [int]; a [bool] is one ([True] is 1, [False] 0). *)
Definition int_key (k : value) : option Z :=
  match k with
  | VInt n => Some n
  | VBool b => Some (if b then 1%Z else 0%Z)
  | _ => None
  end.

(** The elements with their keys, when all keys are [int]s. *)
Fixpoint int_keyed (keyed : list (value * value)) : option (list (Z * value)) :=
  match keyed with
  | [] => Some []
  | (k, x) :: rest =>
      match int_key k, int_keyed rest with
      | Some n, Some zs => Some ((n, x) :: zs)
      | _, _ => None
      end
  end.

Section DisplayPlan.

(** The part of the runtime that is left open: [repr] of a [float], a
    [list] or a [dict]; the truth value of a [float], given by its
    literal; and [list.sort] on keys that are not all [int]s, where the
    result, or the [TypeError] of a comparison, depends on the
    comparisons the runtime chooses to make. *)
Variable py_repr : value -> str.
Variable float_bool : str -> bool.
Variable list_sort : list (value * value) -> outcome (list value).

(** [bool(x)]. *)
Definition py_bool (x : value) : bool :=
  match x with
  | VNone => false
  | VBool b => b
  | VInt n => negb (n =? 0)%Z
  | VFloat literal => float_bool literal
  | VStr [] => false
  | VStr (_ :: _) => true
  | VList [] => false
  | VList (_ :: _) => true
  | VDict [] => false
  | VDict (_ :: _) => true
  end.

(** [str(x)], which is also how an f-string shows [x]. *)
Definition py_str (x : value) : str :=
  match x with
  | VNone => lit "None"
  | VBool true => lit "True"
  | VBool false => lit "False"
  | VInt n => str_of_int n
  | VStr s => s
  | VFloat _ | VList _ | VDict _ => py_repr x
  end.

(** [sorted(iterable, key=key)]: the elements are gathered, then the
    key of each is computed, in order; elements whose keys are all
    [int]s come back in ascending order of key, those of equal key in
    their original order. *)
Definition py_sorted (iterable : value) (key : value -> outcome value)
    : outcome (list value) :=
  items <- py_iter iterable ;;
  keyed <- for_each (fun x => k <- key x ;; Return (k, x)) items ;;
  match int_keyed keyed with
  | Some zs => Return (map snd (sorted fst zs))
  | None => list_sort keyed
  end.

(** Line 204. *)
Definition deps_str (dependencies : value) : outcome str :=
  if py_bool dependencies
  then items <- py_iter dependencies ;;
       Return (join (lit ", ") (map py_str items))
  else Return (lit "None").

(** The body of the loop of lines 199-208: the expander of one task.
    Nothing is shown for a task when an exception is raised, since the
    dependency line is computed before the expander is opened. *)
Definition render_task (task : value) : outcome widget :=
  task_id <- py_get task (lit "task_id") (VStr (lit "?")) ;;
  task_name <- py_get task (lit "task_name") (VStr (lit "Unnamed Task")) ;;
  duration <- py_get task (lit "duration_days") (VStr (lit "?")) ;;
  dependencies <- py_get task (lit "dependencies") (VList []) ;;
  deps <- deps_str dependencies ;;
  description <- py_get task (lit "description") (VStr (lit "No description provided.")) ;;
  Return
    (Expander
       (lit "**Task " ++ py_str task_id ++ lit ": " ++ py_str task_name
          ++ lit "** (" ++ py_str duration ++ lit " days)")
       [ Markdown (lit "**Description:** " ++ py_str description);
         Markdown (lit "**Dependencies:** Task(s) " ++ deps) ]).

(** The loop: the tasks shown before the first exception, if any. *)
Fixpoint render_tasks (sorted_tasks : list value) : outcome unit * list widget :=
  match sorted_tasks with
  | [] => (Return tt, [])
  | task :: rest =>
      match render_task task with
      | Raise e => (Raise e, [])
      | Return shown =>
          let (result, more) := render_tasks rest in (result, shown :: more)
      end
  end.

(** [display_plan]: how it ends, and what it has put on the page. *)
Definition display_plan (tasks : value) : outcome unit * list widget :=
  if negb (py_bool tasks) then (Return tt, [Warning (lit "The plan is empty.")])
  else
    match py_sorted tasks (fun x => py_get x (lit "task_id") (VInt 0)) with
    | Raise e => (Raise e, [])
    | Return sorted_tasks => render_tasks sorted_tasks
    end.

End DisplayPlan.

(* The display, as the specification words it. *)

Definition is_int (x : value) : bool :=
  match x with VInt _ => true | _ => false end.

(** An object whose [task_id], when present, is an integer. *)
Definition has_integer_id (x : value) : bool :=
  match x with
  | VDict d =>
      match dict_get d (lit "task_id") with
      | None | Some (VInt _) => true
      | Some _ => false
      end
  | _ => false
  end.

(** An object whose [dependencies], when present, are a list of
    integers. *)
Definition has_integer_dependencies (x : value) : bool :=
  match x with
  | VDict d =>
      match dict_get d (lit "dependencies") with
      | None => true
      | Some (VList items) => forallb is_int items
      | Some _ => false
      end
  | _ => false
  end.

(** A task record of the data model, each field optional. *)
Definition task_record (x : value) : bool :=
  has_integer_id x && has_integer_dependencies x.

(** The [task_id] of a task record, 0 when it has none. *)
Definition id_of (x : value) : Z :=
  match x with
  | VDict d => match dict_get d (lit "task_id") with Some (VInt n) => n | _ => 0%Z end
  | _ => 0%Z
  end.

Definition int_of (x : value) : list Z :=
  match x with VInt n => [n] | _ => [] end.

(** The dependency ids of a task record, none when it has no
    [dependencies]. *)
Definition dependency_ids (x : value) : list Z :=
  match x with
  | VDict d =>
      match dict_get d (lit "dependencies") with
      | Some (VList items) => flat_map int_of items
      | _ => []
      end
  | _ => []
  end.

(** The ids joined by [", "], or [None] when there are none. *)
Definition dependency_line (x : value) : str :=
  match dependency_ids x with
  | [] => lit "None"
  | id :: ids => join (lit ", ") (map str_of_int (id :: ids))
  end.

(** An expander that ends with the dependency line of [task]. *)
Definition shows_dependencies (task : value) (shown : widget) : Prop :=
  exists label text,
    shown = Expander label
              [ Markdown text;
                Markdown (lit "**Dependencies:** Task(s) " ++ dependency_line task) ].

(* ================================================================== *)
(** ** Specification vocabulary                                        *)
(* ================================================================== *)

(** [sub] occurs in [s] at offset [i]. *)
Definition occurs_at (s sub : str) (i : nat) : Prop :=
  exists pre post, s = pre ++ sub ++ post /\ length pre = i.

(** The first occurrence of [sub] in [s] is at offset [i]. *)
Definition first_at (s sub : str) (i : nat) : Prop :=
  occurs_at s sub i /\ forall k, occurs_at s sub k -> (i <= k)%nat.

(** The value under [key] of a returned record. *)
Definition get_field (v : value) (key : str) : option value :=
  match v with VDict d => dict_get d key | _ => None end.

(* The line scan, as the specification words it. *)

(** A line that starts with the fence. *)
Definition is_fence_line (line : str) : bool := startswith line fence.

(** Number of fence lines among the first [k] lines. *)
Definition fences_before (lines : list str) (k : nat) : nat :=
  length (filter is_fence_line (firstn k lines)).

(** The "inside code block" flag starts cleared and is toggled on each
    fence line: when line [k] is reached it is set exactly when an odd
    number of fence lines came before.  A line is collected when it is
    not itself a fence line and the flag is set. *)
Definition collected_at (lines : list str) (kl : nat * str) : bool :=
  negb (is_fence_line (snd kl)) && Nat.odd (fences_before lines (fst kl)).

Definition collected (lines : list str) : list str :=
  map snd (filter (collected_at lines) (combine (seq 0 (length lines)) lines)).

(** The scan without its accumulator: the lines met while [flag] is
    set, fence lines apart. *)
Fixpoint lines_inside (lines : list str) (flag : bool) : list str :=
  match lines with
  | [] => []
  | line :: rest =>
      if is_fence_line line then lines_inside rest (negb flag)
      else if flag then line :: lines_inside rest flag
      else lines_inside rest flag
  end.

(* ------------------------------------------------------------------ *)
(** *** Sample response texts                                          *)
(* ------------------------------------------------------------------ *)

Definition plan_empty_json : str := lit "{" ++ q (lit "plan") ++ lit ":[]}".
Definition plan_one_json : str :=
  lit "{" ++ q (lit "plan") ++ lit ":[{" ++ q (lit "task_id") ++ lit ":1}]}".
Definition tasks_json : str := lit "{" ++ q (lit "tasks") ++ lit ": []}".

Definition raw_json_fenced : str := lit "```json" ++ nl ++ plan_empty_json ++ nl ++ lit "```".
Definition raw_generic_fenced : str := lit "```" ++ nl ++ plan_one_json ++ nl ++ lit "```".
Definition raw_unclosed : str := lit "```json" ++ nl ++ plan_empty_json.
Definition raw_not_json : str := lit "not json".
Definition raw_fenced_not_json : str := lit "```json" ++ nl ++ lit "not json" ++ nl ++ lit "```".
Definition raw_fenced_tasks : str := lit "```json" ++ nl ++ tasks_json ++ nl ++ lit "```".

(** A generic block whose content starts with a form feed, and an
    unclosed [```json] block that ends with a line break. *)
Definition FF : N := 12%N.
Definition raw_form_feed : str := lit "```" ++ nl ++ [FF] ++ lit "{}" ++ nl ++ lit "```".
Definition raw_unclosed_line : str := lit "```json" ++ nl ++ plan_empty_json ++ nl.

(** The example of the required JSON shape that the prompt shows. *)
Definition json_skeleton : str :=
  unlines
  [ lit "{";
    lit "  " ++ q (lit "plan") ++ lit ": [";
    lit "    {";
    lit "      " ++ q (lit "task_id") ++ lit ": 1,";
    lit "      " ++ q (lit "task_name") ++ lit ": " ++ q (lit "Task name here") ++ lit ",";
    lit "      " ++ q (lit "description") ++ lit ": " ++ q (lit "Detailed description here") ++ lit ",";
    lit "      " ++ q (lit "dependencies") ++ lit ": [],";
    lit "      " ++ q (lit "duration_days") ++ lit ": 5";
    lit "    }";
    lit "  ]";
    lit "}" ].

(** A model whose every call raises. *)
Definition raises (e : exn) (call : ai_call) : outcome str := Raise e.

(** A model that answers every call with the same text. *)
Definition answers (text : str) (call : ai_call) : outcome str := Return text.

(** The record returned when the round trip to the model (or anything
    after it but the JSON decoding) raises. *)
Definition ai_failure (e : exn) : value := error_dict (ai_error_prefix ++ exn_text e).

(* ------------------------------------------------------------------ *)
(** *** Concrete collaborators for the examples                        *)
(* ------------------------------------------------------------------ *)

(** The texts CPython 3.11 gives the two [TypeError]s. *)
Definition cpython_type_error_text (t : type_error) : str :=
  match t with
  | NotIterable v => lit "argument of type '" ++ type_name v ++ lit "' is not iterable"
  | BadSubscript (VList _) => lit "list indices must be integers or slices, not str"
  | BadSubscript (VStr _) => lit "string indices must be integers, not 'str'"
  | BadSubscript v => lit "'" ++ type_name v ++ lit "' object is not subscriptable"
  end.

Definition sample_goal : str := lit "Launch a minimal e-commerce web app in 4 weeks.".
Definition sample_model : str := lit "models/gemini-2.0-flash-exp".

(** [generate_plan] run on a fixed answer of the model. *)
Definition run (answer : str) : outcome value :=
  fst (generate_plan Ref.loads cpython_type_error_text (answers answer)
         sample_goal sample_model).

(* ------------------------------------------------------------------ *)
(** *** Sample tasks, requests and rows                                *)
(* ------------------------------------------------------------------ *)

(** The order [sorted] sorts by. *)
Definition key_le {A : Type} (key : A -> Z) (a b : A) : Prop := (key a <= key b)%Z.

Definition task_with_id (n : Z) : value := VDict [(lit "task_id", VInt n)].
Definition task_with_deps (deps : list Z) : value :=
  VDict [(lit "task_id", VInt 1); (lit "dependencies", VList (map VInt deps))].

(** What is shown for a task that has only an id and dependencies. *)
Definition plain_expander (id deps : str) : widget :=
  Expander (lit "**Task " ++ id ++ lit ": Unnamed Task** (? days)")
    [ Markdown (lit "**Description:** No description provided.");
      Markdown (lit "**Dependencies:** Task(s) " ++ deps) ].

(** The requests the four functions send. *)
Definition insert_query (goal model_name : str) (plan_json : value) : query :=
  mkQuery task_plans
    (OpInsert (VDict [ (lit "goal", VStr goal);
                       (lit "model_used", VStr model_name);
                       (lit "plan_json", plan_json) ]))
    [] None None.

Definition recent_query (limit : Z) : query :=
  mkQuery task_plans (OpSelect (lit "*")) [] (Some (lit "created_at", true)) (Some limit).

Definition search_query (search_term : str) : query :=
  mkQuery task_plans (OpSelect (lit "*"))
    [Ilike (lit "goal") (lit "%" ++ search_term ++ lit "%")]
    (Some (lit "created_at", true)) None.

Definition delete_query (plan_id : value) : query :=
  mkQuery task_plans OpDelete [Eq (lit "id") plan_id] None None.

(** How the result of a database function answers the outcome of the
    round trip: the function returns (it never raises); a round trip
    that raises gives [success] false and the exception's text as
    [error]; one that returns gives [success] true. *)
Definition answers_round_trip {Store : Type}
    (remote result : outcome value * Store) : Prop :=
  snd result = snd remote /\
  match fst remote with
  | Raise e =>
      fst result
      = Return (VDict [(lit "success", VBool false); (lit "error", VStr (exn_text e))])
  | Return _ =>
      exists r, fst result = Return r /\ get_field r (lit "success") = Some (VBool true)
  end.

Definition sample_row : value :=
  VDict [ (lit "id", VInt 1); (lit "created_at", VInt 1);
          (lit "goal", VStr (lit "Launch a Shop")) ].

(* ================================================================== *)
(** ** Start-up configuration                                          *)
(* ================================================================== *)

(** The emoji that open the messages. *)
Definition SIREN : N := 128680%N.
Definition TARGET : N := 127919%N.

(** [os.environ], after [load_dotenv()]. *)
Definition environ := list (str * str).

(** [os.environ[name]]: a missing name raises [KeyError(name)], whose
    text is the name between single quotes. *)
Fixpoint environ_get (env : environ) (name : str) : outcome str :=
  match env with
  | [] => Raise (mkExn KeyError (lit "'" ++ name ++ lit "'"))
  | (k, v) :: env' => if str_eqb k name then Return v else environ_get env' name
  end.

(** [except KeyError]. *)
Definition is_KeyError (e : exn) : bool :=
  match exn_cls e with KeyError => true | _ => false end.

(** How the script leaves lines 13-37: stopped by [st.stop()] after one
    [st.error] message, or ready with the key and the client. *)
Inductive startup (Client : Type) : Type :=
| Stopped (message : str)
| Ready (api_key : str) (client : Client).
Arguments Stopped {Client} message.
Arguments Ready {Client} api_key client.

Definition missing_google_key_msg : str :=
  [SIREN] ++ lit " Missing Google API key. Please add it to your environment variables.".
Definition api_configuration_prefix : str :=
  [SIREN] ++ lit " An error occurred during API configuration: ".
Definition missing_supabase_prefix : str :=
  [SIREN] ++ lit " Missing Supabase credentials: ".
Definition missing_supabase_suffix : str :=
  lit ". Please add SUPABASE_URL and SUPABASE_KEY to your environment.".
Definition supabase_configuration_prefix : str :=
  [SIREN] ++ lit " An error occurred during Supabase configuration: ".

Section Startup.

(** The two constructors of the collaborators' clients. *)
Variable Client : Type.
Variable genai_configure : str -> outcome unit.
Variable create_client : str -> str -> outcome Client.

(** Lines 17-25. *)
Definition configure_api (env : environ) : str + str :=
  match (api_key <- environ_get env (lit "GOOGLE_API_KEY") ;;
         _ <- genai_configure api_key ;;
         Return api_key) with
  | Return api_key => inr api_key
  | Raise e =>
      if is_KeyError e then inl missing_google_key_msg
      else inl (api_configuration_prefix ++ exn_text e)
  end.

(** Lines 28-37. *)
Definition configure_supabase (env : environ) : str + Client :=
  match (url <- environ_get env (lit "SUPABASE_URL") ;;
         key <- environ_get env (lit "SUPABASE_KEY") ;;
         create_client url key) with
  | Return supabase => inr supabase
  | Raise e =>
      if is_KeyError e
      then inl (missing_supabase_prefix ++ exn_text e ++ missing_supabase_suffix)
      else inl (supabase_configuration_prefix ++ exn_text e)
  end.

(** Lines 13-37: the second block runs only if the first did not stop
    the script. *)
Definition start (env : environ) : startup Client :=
  match configure_api env with
  | inl message => Stopped message
  | inr api_key =>
      match configure_supabase env with
      | inl message => Stopped message
      | inr supabase => Ready api_key supabase
      end
  end.

End Startup.

Arguments configure_supabase {Client} create_client env.
Arguments start {Client} genai_configure create_client env.

(* ================================================================== *)
(** ** History view                                                    *)
(* ================================================================== *)

(** The label of a stored plan's expander (line 322). *)
Definition history_title (goal : str) : str :=
  [TARGET] ++ lit " " ++ slice goal 0 100
  ++ (if (100 <? Z.of_nat (length goal))%Z then lit "..." else []).

(** [st.session_state.get("search_triggered", False)], as a condition. *)
Definition search_triggered (flag : option bool) : bool :=
  match flag with Some b => b | None => false end.

(** Lines 295-296: what a click on "Search" stores. *)
Definition click_search (flag : option bool) : option bool := Some true.

Section HistoryView.

Variable Store : Type.
Variable execute : query -> Store -> outcome value * Store.

(** Lines 299-305: the record to show, the store and the flag after. *)
Definition load_plans (search_query : str) (flag : option bool) (db : Store)
    : outcome value * Store * option bool :=
  if negb (match search_query with [] => true | _ :: _ => false end)
     && search_triggered flag
  then (search_plans_by_goal execute search_query db, Some false)
  else (get_recent_plans execute 20 db, flag).

(** One run of the history tab up to line 305: the text in the search
    box and whether "Search" was clicked in this run. *)
Definition history_run (search_query : str) (clicked : bool) (flag : option bool)
    (db : Store) : outcome value * Store * option bool :=
  load_plans search_query (if clicked then click_search flag else flag) db.

End HistoryView.

Arguments load_plans {Store} execute search_query flag db.
Arguments history_run {Store} execute search_query clicked flag db.

(** A session of the history view: the runs of the script in order,
    each with the text in the search box and whether "Search" was
    clicked; the flag and the store pass from one run to the next. *)
Fixpoint history_session {Store : Type}
    (execute : query -> Store -> outcome value * Store)
    (runs : list (str * bool)) (flag : option bool) (db : Store)
    : option bool * Store :=
  match runs with
  | [] => (flag, db)
  | (search_query, clicked) :: rest =>
      let '(_, db', flag') := history_run execute search_query clicked flag db in
      history_session execute rest flag' db'
  end.

(** An environment with the Google key and the Supabase URL only. *)
Definition sample_environ : environ :=
  [ (lit "GOOGLE_API_KEY", lit "g-key"); (lit "SUPABASE_URL", lit "https://db.example") ].

(** A round trip that also writes the request down: the store carries
    the list of the requests sent so far. *)
Definition logged {Store : Type} (execute : query -> Store -> outcome value * Store)
    (qy : query) (s : list query * Store) : outcome value * (list query * Store) :=
  let (result, db') := execute qy (snd s) in
  (result, (fst s ++ [qy], db')).

(** A request with a filter on the goal. *)
Definition is_search (qy : query) : bool :=
  match q_filters qy with [] => false | _ :: _ => true end.

Definition clicks (runs : list (str * bool)) : nat :=
  length (filter (fun run => snd run) runs).

Definition armed (flag : option bool) : nat :=
  if search_triggered flag then 1%nat else 0%nat.

(* Vocabulary of the further properties. *)

(** A text of white space only. *)
Definition blank (s : str) : bool := forallb isspace s.

(** The backtick. *)
Definition BACKTICK : N := 96%N.

(** Total length of lines, each counted with its line break. *)
Definition with_breaks (lines : list str) : nat :=
  fold_right (fun l n => (length l + 1 + n)%nat) 0%nat lines.

(** The record is one of the failures [generate_plan] builds, or holds a
    list under ["plan"]. *)
Definition error_or_plan (d : dict) : Prop :=
  (exists msg, dict_get d (lit "error") = Some (VStr msg))
  \/ (exists items, dict_get d (lit "plan") = Some (VList items)).

(* ================================================================== *)
(** ** Facts about the [str] operations                                *)
(* ================================================================== *)

Lemma str_eqb_eq (a b : str) : str_eqb a b = true <-> a = b.
Proof.
  revert b; induction a as [|x a IH]; intros [|y b]; simpl; split; intro H;
    try reflexivity; try discriminate.
  - apply andb_true_iff in H as [Hx Ha]. apply N.eqb_eq in Hx.
    apply IH in Ha. congruence.
  - inversion H; subst. rewrite N.eqb_refl. simpl. now apply IH.
Qed.

Lemma str_eqb_refl (a : str) : str_eqb a a = true.
Proof. now apply str_eqb_eq. Qed.

Lemma startswith_iff (s p : str) :
  startswith s p = true <-> exists t, s = p ++ t.
Proof.
  revert s; induction p as [|x p IH]; intros s; simpl.
  - split; [intros _; now exists s | reflexivity].
  - destruct s as [|c s].
    + split; [discriminate | intros [t Ht]; discriminate].
    + rewrite andb_true_iff, N.eqb_eq, IH. split.
      * intros [-> [t ->]]. now exists t.
      * intros [t Ht]. inversion Ht; subst. split; [reflexivity | now exists t].
Qed.

Lemma startswith_app (p t : str) : startswith (p ++ t) p = true.
Proof. apply startswith_iff. now exists t. Qed.

Lemma occurs_at_0 (s sub : str) : occurs_at s sub 0 <-> startswith s sub = true.
Proof.
  rewrite startswith_iff. split.
  - intros (pre & post & -> & Hlen). destruct pre; [|discriminate]. now exists post.
  - intros [t ->]. now exists [], t.
Qed.

Lemma occurs_at_S (c : N) (s sub : str) (k : nat) :
  occurs_at (c :: s) sub (S k) <-> occurs_at s sub k.
Proof.
  split.
  - intros (pre & post & E & Hlen). destruct pre as [|x pre]; [discriminate|].
    inversion E; subst. exists pre, post. split; [reflexivity | now inversion Hlen].
  - intros (pre & post & -> & Hlen). exists (c :: pre), post. simpl. now rewrite Hlen.
Qed.

Lemma occurs_at_nil (sub : str) (k : nat) : occurs_at [] sub k -> k = 0%nat.
Proof.
  intros (pre & post & E & Hlen). destruct pre; [now subst | discriminate].
Qed.

Lemma occurs_at_skipn (s sub : str) (i : nat) :
  occurs_at s sub i <-> (i <= length s)%nat /\ occurs_at (skipn i s) sub 0.
Proof.
  revert s; induction i as [|i IH]; intros s.
  - simpl. split; [intros H; split; [lia | exact H] | now intros [_ H]].
  - destruct s as [|c s].
    + split.
      * intros H. apply occurs_at_nil in H. discriminate.
      * simpl. intros [H _]. lia.
    + rewrite occurs_at_S, IH. simpl. split; intros [H1 H2]; (split; [lia | exact H2]).
Qed.

Lemma find_first_0 (s sub : str) :
  find_first s sub = Some 0%nat <-> startswith s sub = true.
Proof.
  destruct s as [|c s]; simpl; destruct (startswith _ sub) eqn:E;
    split; intro H; try reflexivity; try discriminate.
  destruct (find_first s sub); discriminate.
Qed.

Lemma find_first_spec (s sub : str) (i : nat) :
  find_first s sub = Some i <-> first_at s sub i.
Proof.
  revert i; induction s as [|c s IH]; intros i.
  - simpl. destruct (startswith [] sub) eqn:E.
    + split.
      * intros H; inversion H; subst. split; [now apply occurs_at_0 | intros; lia].
      * intros [H _]. apply occurs_at_nil in H. now subst.
    + split; [discriminate|]. intros [H _].
      pose proof (occurs_at_nil _ _ H); subst. apply occurs_at_0 in H. congruence.
  - simpl. destruct (startswith (c :: s) sub) eqn:E.
    + split.
      * intros H; inversion H; subst. split; [now apply occurs_at_0 | intros; lia].
      * intros [_ H]. apply occurs_at_0 in E. apply H in E.
        assert (i = 0%nat) by lia. now subst.
    + destruct i as [|i].
      * split.
        -- destruct (find_first s sub); discriminate.
        -- intros [H _]. apply occurs_at_0 in H. congruence.
      * split.
        -- intros H. pose proof (IH i) as IHi.
           destruct (find_first s sub) as [j|]; [|discriminate].
           inversion H; subst. destruct IHi as [IHi _].
           destruct (IHi eq_refl) as [F1 F2]. split.
           ++ now apply occurs_at_S.
           ++ intros [|k] Hk.
              ** apply occurs_at_0 in Hk. congruence.
              ** apply occurs_at_S in Hk. apply F2 in Hk. lia.
        -- intros [H1 H2]. apply occurs_at_S in H1.
           assert (F : first_at s sub i).
           { split; [exact H1|]. intros k Hk.
             apply (occurs_at_S c) in Hk. apply H2 in Hk. lia. }
           apply IH in F. now rewrite F.
Qed.

Lemma find_first_None (s sub : str) :
  find_first s sub = None <-> forall i, ~ occurs_at s sub i.
Proof.
  induction s as [|c s IH].
  - simpl. destruct (startswith [] sub) eqn:E.
    + split; [discriminate|]. intros H. exfalso. apply (H 0%nat). now apply occurs_at_0.
    + split; [|reflexivity]. intros _ i H.
      pose proof (occurs_at_nil _ _ H); subst. apply occurs_at_0 in H. congruence.
  - simpl. destruct (startswith (c :: s) sub) eqn:E.
    + split; [discriminate|]. intros H. exfalso. apply (H 0%nat). now apply occurs_at_0.
    + split.
      * intros H [|i] Hi.
        -- apply occurs_at_0 in Hi. congruence.
        -- apply occurs_at_S in Hi. destruct (find_first s sub); [discriminate|].
           destruct IH as [IH _]. now apply (IH eq_refl i).
      * intros H. destruct IH as [_ IH]. rewrite IH; [reflexivity|].
        intros i Hi. apply (H (S i)). now apply occurs_at_S.
Qed.

Lemma contains_iff (s sub : str) :
  contains s sub = true <-> exists i, occurs_at s sub i.
Proof.
  unfold contains. destruct (find_first s sub) as [i|] eqn:F.
  - split; [|reflexivity]. intros _. exists i. now apply find_first_spec in F as [F _].
  - split; [discriminate|]. intros [i Hi]. exfalso.
    exact (proj1 (find_first_None s sub) F i Hi).
Qed.

Lemma contains_false_iff (s sub : str) :
  contains s sub = false <-> forall i, ~ occurs_at s sub i.
Proof.
  rewrite <- find_first_None. unfold contains.
  destruct (find_first s sub); split; intro; congruence.
Qed.

Lemma contains_first (s sub : str) :
  contains s sub = true -> exists i, first_at s sub i.
Proof.
  unfold contains. destruct (find_first s sub) as [i|] eqn:F; [|discriminate].
  intros _. exists i. now apply find_first_spec.
Qed.

Lemma first_at_unique (s sub : str) (i j : nat) :
  first_at s sub i -> first_at s sub j -> i = j.
Proof.
  intros [A1 A2] [B1 B2]. apply A2 in B1. apply B2 in A1. lia.
Qed.

(** [find] from an offset inside the text. *)
Lemma find_from (s sub : str) (start : nat) :
  (start <= length s)%nat ->
  find s sub (Z.of_nat start) =
    match find_first (skipn start s) sub with
    | Some i => Z.of_nat (start + i)
    | None => (-1)%Z
    end.
Proof.
  intros H. unfold find.
  destruct (Z.ltb_spec (Z.of_nat start) 0); [lia|].
  destruct (Z.ltb_spec (Z.of_nat (length s)) (Z.of_nat start)); [lia|].
  rewrite Nat2Z.id. destruct (find_first _ sub); [f_equal; lia | reflexivity].
Qed.

Lemma find_0 (s sub : str) (i : nat) :
  first_at s sub i -> find s sub 0 = Z.of_nat i.
Proof.
  intros H. apply find_first_spec in H.
  change 0%Z with (Z.of_nat 0). rewrite find_from by lia. simpl. now rewrite H.
Qed.

Lemma first_at_bound (s sub : str) (i : nat) :
  first_at s sub i -> (i + length sub <= length s)%nat.
Proof.
  intros [(pre & post & -> & Hlen) _]. rewrite !length_app. lia.
Qed.

(** A slice between two offsets inside the text. *)
Lemma slice_between (s : str) (lo hi : nat) :
  (lo <= length s)%nat -> (hi <= length s)%nat ->
  slice s (Z.of_nat lo) (Z.of_nat hi) = firstn (hi - lo) (skipn lo s).
Proof.
  intros H1 H2. unfold slice, adjust_index.
  destruct (Z.ltb_spec (Z.of_nat lo) 0); [lia|].
  destruct (Z.ltb_spec (Z.of_nat hi) 0); [lia|].
  rewrite !Z.min_l by lia. rewrite Nat2Z.id. f_equal. lia.
Qed.

(** A slice whose end is [-1] stops before the last character. *)
Lemma slice_to_minus_one (s : str) (lo : nat) :
  (lo <= length s)%nat ->
  slice s (Z.of_nat lo) (-1) = removelast (skipn lo s).
Proof.
  intros H. unfold slice, adjust_index.
  destruct (Z.ltb_spec (Z.of_nat lo) 0); [lia|].
  destruct (Z.ltb_spec (-1) 0); [|lia].
  rewrite Z.min_l by lia. rewrite Nat2Z.id.
  set (t := skipn lo s).
  assert (Ht : length t = (length s - lo)%nat) by (unfold t; apply length_skipn).
  replace (Z.to_nat (Z.max 0 (-1 + Z.of_nat (length s)) - Z.of_nat lo))
    with (length t - 1)%nat by lia.
  clearbody t. clear.
  destruct t as [|c t] using rev_ind; [reflexivity|].
  rewrite removelast_last, length_app. simpl.
  replace (length t + 1 - 1)%nat with (length t) by lia.
  rewrite firstn_app, firstn_all, Nat.sub_diag. simpl. now rewrite app_nil_r.
Qed.

Lemma bool_eq_of_iff (a b : bool) : (a = true <-> b = true) -> a = b.
Proof.
  destruct a, b; intros [H1 H2]; try reflexivity.
  - symmetry. now apply H1.
  - now apply H2.
Qed.

Lemma isspace_neq (a c : N) : isspace a = false -> isspace c = true -> N.eqb a c = false.
Proof.
  intros Ha Hc. apply N.eqb_neq. intros ->. congruence.
Qed.

Lemma lstrip_nonspace (c : N) (s : str) : isspace c = false -> lstrip (c :: s) = c :: s.
Proof. intros H. simpl. now rewrite H. Qed.

Lemma lstrip_app_nonspace (a b : str) (c : N) :
  isspace c = false -> lstrip (a ++ c :: b) = lstrip a ++ c :: b.
Proof.
  intros H. induction a as [|x a IH]; simpl.
  - now rewrite H.
  - destruct (isspace x); [exact IH | reflexivity].
Qed.

Lemma rstrip_app_nonspace (p t : str) (c : N) :
  isspace c = false -> rstrip ((p ++ [c]) ++ t) = (p ++ [c]) ++ rstrip t.
Proof.
  intros H. unfold rstrip.
  rewrite (rev_app_distr (p ++ [c]) t), (rev_app_distr p [c]). simpl.
  rewrite lstrip_app_nonspace by exact H.
  rewrite rev_app_distr. simpl. now rewrite rev_involutive.
Qed.

Lemma contains_lstrip (s sub' : str) (a : N) :
  isspace a = false -> contains (lstrip s) (a :: sub') = contains s (a :: sub').
Proof.
  intros Ha. induction s as [|c s IH]; [reflexivity|].
  simpl lstrip. destruct (isspace c) eqn:Hc; [|reflexivity].
  rewrite IH. unfold contains. simpl find_first.
  rewrite (isspace_neq _ _ Ha Hc). simpl.
  now destruct (find_first s (a :: sub')).
Qed.

Lemma occurs_at_rev (s sub : str) (i : nat) :
  occurs_at s sub i -> exists k, occurs_at (rev s) (rev sub) k.
Proof.
  intros (pre & post & -> & _). exists (length (rev post)), (rev post), (rev pre).
  split; [|reflexivity]. now rewrite !rev_app_distr, app_assoc.
Qed.

Lemma contains_rev (s sub : str) : contains (rev s) (rev sub) = contains s sub.
Proof.
  apply bool_eq_of_iff. rewrite !contains_iff. split; intros [i Hi].
  - apply occurs_at_rev in Hi. now rewrite !rev_involutive in Hi.
  - now apply occurs_at_rev in Hi.
Qed.

Lemma contains_rstrip (s sub' : str) (z : N) :
  isspace z = false -> contains (rstrip s) (sub' ++ [z]) = contains s (sub' ++ [z]).
Proof.
  intros Hz. unfold rstrip.
  rewrite <- (rev_involutive (sub' ++ [z])) at 1. rewrite contains_rev.
  rewrite rev_app_distr. simpl. rewrite contains_lstrip by exact Hz.
  change (z :: rev sub') with (rev [z] ++ rev sub'). rewrite <- rev_app_distr.
  apply contains_rev.
Qed.

(** Trimming neither hides nor creates an occurrence of a marker whose
    first and last characters are not white space. *)
Lemma contains_strip (s sub sub1 sub2 : str) (a z : N) :
  sub = a :: sub1 -> sub = sub2 ++ [z] -> isspace a = false -> isspace z = false ->
  contains (strip s) sub = contains s sub.
Proof.
  intros E1 E2 Ha Hz. unfold strip.
  rewrite E2, contains_rstrip by exact Hz.
  rewrite <- E2, E1. now apply contains_lstrip.
Qed.

Lemma contains_strip_json_fence (s : str) :
  contains (strip s) json_fence = contains s json_fence.
Proof.
  apply (@contains_strip s json_fence (lit "``json") (lit "```jso") (code "`") (code "n"));
    reflexivity.
Qed.

Lemma startswith_strip_fence (s : str) :
  startswith s fence = true -> startswith (strip s) fence = true.
Proof.
  intros H. apply startswith_iff in H as [t ->]. unfold strip.
  change (fence ++ t) with (code "`" :: (lit "``" ++ t)).
  rewrite lstrip_nonspace by reflexivity.
  change (code "`" :: (lit "``" ++ t)) with ((lit "``" ++ [code "`"]) ++ t).
  rewrite rstrip_app_nonspace by reflexivity.
  apply startswith_iff. exists (rstrip t). reflexivity.
Qed.

(* ------------------------------------------------------------------ *)
(** *** The extractor, branch by branch                                *)
(* ------------------------------------------------------------------ *)

Lemma first_at_contains (s sub : str) (i : nat) : first_at s sub i -> contains s sub = true.
Proof. intros [H _]. apply contains_iff. now exists i. Qed.

Lemma json_fence_start (text : str) (i : nat) :
  first_at text json_fence i ->
  (find text json_fence 0 + 7)%Z = Z.of_nat (i + 7) /\ (i + 7 <= length text)%nat.
Proof.
  intros H. rewrite (find_0 _ _ _ H). split; [lia|].
  apply first_at_bound in H. exact H.
Qed.

(** With a closing fence after the opening marker. *)
Lemma extract_json_closed (text : str) (i j : nat) :
  first_at text json_fence i ->
  first_at (skipn (i + 7) text) fence j ->
  extract_json text = strip (firstn j (skipn (i + 7) text)).
Proof.
  intros Hi Hj. unfold extract_json.
  rewrite (first_at_contains _ _ _ Hi).
  destruct (json_fence_start _ _ Hi) as [-> Hlen]. cbv zeta.
  rewrite find_from by exact Hlen.
  pose proof (first_at_bound _ _ _ Hj) as Hb. rewrite length_skipn in Hb.
  apply find_first_spec in Hj. rewrite Hj.
  rewrite slice_between by lia.
  f_equal. f_equal. lia.
Qed.

(** Without one. *)
Lemma extract_json_unclosed (text : str) (i : nat) :
  first_at text json_fence i ->
  (forall j, ~ occurs_at (skipn (i + 7) text) fence j) ->
  find text fence (Z.of_nat (i + 7)) = (-1)%Z /\
  extract_json text = strip (removelast (skipn (i + 7) text)).
Proof.
  intros Hi Hno.
  destruct (json_fence_start _ _ Hi) as [Hs Hlen].
  apply find_first_None in Hno.
  assert (F : find text fence (Z.of_nat (i + 7)) = (-1)%Z).
  { rewrite find_from by exact Hlen. now rewrite Hno. }
  split; [exact F|].
  unfold extract_json. rewrite (first_at_contains _ _ _ Hi), Hs. cbv zeta.
  rewrite F. now rewrite slice_to_minus_one by exact Hlen.
Qed.

(** Neither marker: the text is parsed as it is. *)
Lemma extract_json_plain (text : str) :
  contains text json_fence = false -> startswith text fence = false ->
  extract_json text = text.
Proof. intros H1 H2. unfold extract_json. now rewrite H1, H2. Qed.

(* ------------------------------------------------------------------ *)
(** *** The line scan                                                  *)
(* ------------------------------------------------------------------ *)

Lemma scan_lines_acc (lines : list str) (flag : bool) (acc : list str) :
  scan_lines lines flag acc = acc ++ lines_inside lines flag.
Proof.
  revert flag acc; induction lines as [|line rest IH]; intros flag acc;
    cbn [scan_lines lines_inside].
  - now rewrite app_nil_r.
  - unfold is_fence_line. destruct (startswith line fence).
    + apply IH.
    + destruct flag.
      * rewrite IH, <- app_assoc. reflexivity.
      * apply IH.
Qed.

Lemma lines_inside_collected (pre lines : list str) :
  lines_inside lines (Nat.odd (length (filter is_fence_line pre))) =
  map snd (filter (collected_at (pre ++ lines))
             (combine (seq (length pre) (length lines)) lines)).
Proof.
  revert pre; induction lines as [|line rest IH]; intros pre; [reflexivity|].
  simpl length. simpl seq. simpl combine. simpl filter.
  unfold collected_at at 1. simpl fst. simpl snd.
  unfold fences_before. rewrite firstn_app, firstn_all, Nat.sub_diag. simpl firstn.
  rewrite app_nil_r.
  specialize (IH (pre ++ [line])).
  rewrite <- app_assoc, length_app, filter_app, length_app in IH.
  simpl in IH. rewrite Nat.add_1_r in IH.
  simpl lines_inside.
  destruct (is_fence_line line) eqn:Hf; simpl in IH |- *.
  - rewrite <- IH. f_equal. rewrite Nat.add_1_r, Nat.odd_succ.
    now rewrite <- Nat.negb_odd.
  - rewrite Nat.add_0_r in IH.
    destruct (Nat.odd (length (filter is_fence_line pre))); simpl; now rewrite <- IH.
Qed.

(** The loop computes the lines inside the block. *)
Lemma scan_lines_collected (lines : list str) :
  scan_lines lines false [] = collected lines.
Proof.
  rewrite scan_lines_acc. simpl. exact (lines_inside_collected [] lines).
Qed.

(* ------------------------------------------------------------------ *)
(** *** [generate_plan], step by step                                  *)
(* ------------------------------------------------------------------ *)

Section GeneratePlanFacts.

Variable json_loads : str -> outcome value.
Variable type_error_text : type_error -> str.
Variable generate_content : ai_call -> outcome str.

Local Abbreviation gp := (generate_plan json_loads type_error_text generate_content).
Local Abbreviation validate := (parse_and_validate json_loads type_error_text).

Lemma generate_plan_calls (c : N) (goal model_name : str) :
  snd (gp (c :: goal) model_name)
  = [mkCall model_name (build_prompt (c :: goal)) the_config].
Proof. reflexivity. Qed.

Lemma generate_plan_answer (c : N) (goal model_name raw : str) :
  generate_content (mkCall model_name (build_prompt (c :: goal)) the_config) = Return raw ->
  fst (gp (c :: goal) model_name)
  = try_except (validate (candidate raw)) any_exception (fun e => Return (ai_failure e)).
Proof.
  intros H. unfold generate_plan. cbn [fst]. rewrite H. reflexivity.
Qed.

Lemma generate_plan_raise (c : N) (goal model_name : str) (e : exn) :
  generate_content (mkCall model_name (build_prompt (c :: goal)) the_config) = Raise e ->
  fst (gp (c :: goal) model_name) = Return (ai_failure e).
Proof.
  intros H. unfold generate_plan. cbn [fst]. rewrite H. reflexivity.
Qed.

(** No exception leaves [generate_plan]. *)
Lemma generate_plan_returns (goal model_name : str) :
  exists v, fst (gp goal model_name) = Return v.
Proof.
  destruct goal as [|c goal]; [eexists; reflexivity|].
  unfold generate_plan. cbn [fst].
  match goal with |- context [try_except ?b _ _] => destruct b as [v|e] end;
    eexists; reflexivity.
Qed.

(** The inner [try], by the outcome of the decoder. *)
Lemma validate_decode_error (text : str) (e : exn) :
  json_loads text = Raise e -> is_JSONDecodeError e = true ->
  validate text = Return (error_raw_dict (invalid_json_prefix ++ exn_text e) text).
Proof.
  intros H He. unfold parse_and_validate. rewrite H. simpl. now rewrite He.
Qed.

Lemma validate_dict (text : str) (d : dict) :
  json_loads text = Return (VDict d) ->
  validate text =
    match dict_get d (lit "plan") with
    | Some (VList _) => Return (VDict d)
    | _ => Return (error_raw_dict unexpected_format_msg text)
    end.
Proof.
  intros H. unfold parse_and_validate. rewrite H.
  unfold has_plan_list, py_in, py_getitem, dict_has. cbn [bind].
  destruct (dict_get d (lit "plan")) as [[]|]; reflexivity.
Qed.

Lemma validate_not_iterable (text : str) (v : value) :
  json_loads text = Return v ->
  match v with VDict _ | VList _ | VStr _ => False | _ => True end ->
  validate text = Raise (mkExn TypeError (type_error_text (NotIterable v))).
Proof.
  intros H Hv. unfold parse_and_validate. rewrite H.
  destruct v; try contradiction; reflexivity.
Qed.

Lemma validate_sequence (text : str) (v : value) (member : bool) :
  json_loads text = Return v ->
  match v with
  | VList items => member = existsb (fun item => eq_str item (lit "plan")) items
  | VStr s => member = contains s (lit "plan")
  | _ => False
  end ->
  validate text =
    if member then Raise (mkExn TypeError (type_error_text (BadSubscript v)))
    else Return (error_raw_dict unexpected_format_msg text).
Proof.
  intros H Hv. unfold parse_and_validate. rewrite H.
  destruct v; try contradiction; subst member;
    unfold has_plan_list, py_in; cbn [bind].
  - destruct (contains s (lit "plan")); reflexivity.
  - destruct (existsb _ items); reflexivity.
Qed.

End GeneratePlanFacts.

Lemma occurs_at_decompose (s sub : str) (i : nat) :
  occurs_at s sub i ->
  s = firstn i s ++ sub ++ skipn (i + length sub) s.
Proof.
  intros (pre & post & -> & <-).
  rewrite firstn_app, firstn_all, Nat.sub_diag. simpl. rewrite app_nil_r.
  do 2 f_equal.
  rewrite app_assoc, <- length_app, skipn_app, skipn_all, Nat.sub_diag.
  reflexivity.
Qed.


(* ================================================================== *)
(** ** The claims                                                      *)
(* ================================================================== *)



Lemma after_marker (text : str) (i : nat) :
  first_at text json_fence i ->
  exists before,
    text = before ++ json_fence ++ skipn (i + 7) text /\ length before = i.
Proof.
  intros [Hi _]. pose proof (occurs_at_decompose _ _ _ Hi) as E.
  exists (firstn i text). split; [exact E|].
  apply firstn_length_le.
  destruct Hi as (pre & post & -> & <-). rewrite length_app. lia.
Qed.

(** C8, as stated, fails: the character lost is the last one of the
    trimmed response, and what is left is trimmed again.  The response
    [```json\n{"plan":[]}\n] has no closing fence; the text from just
    after the marker up to, and not including, its last character is
    [\n{"plan":[]}], which decodes to an empty plan.  The program
    decodes [{"plan":[]] and returns the "invalid JSON" failure. *)
Lemma unclosed_json_fence_counterexample :
  contains raw_unclosed_line json_fence = true
  /\ contains (skipn 7 raw_unclosed_line) fence = false
  /\ removelast (skipn 7 raw_unclosed_line) = nl ++ plan_empty_json
  /\ Ref.loads (nl ++ plan_empty_json) = Return (VDict [(lit "plan", VList [])])
  /\ candidate raw_unclosed_line = lit "{" ++ q (lit "plan") ++ lit ":[]"
  /\ run raw_unclosed_line
     = Return (error_raw_dict
                 (invalid_json_prefix
                    ++ lit "Expecting ',' delimiter: line 1 column 11 (char 10)")
                 (lit "{" ++ q (lit "plan") ++ lit ":[]")).
Proof.
  repeat split; reflexivity.
Qed.

(** C8.  When the response text contains [```json] and no closing fence
    follows the marker, the search for the closing fence gives [-1];
    with [-1] as its end the slice runs from just after the marker up
    to, and not including, the last character of the trimmed response,
    and that slice, trimmed again, is the text decoded.  For
    [```json\n{"plan":[]}] the closing brace is lost and the decoder
    rejects the rest. *)
Theorem unclosed_json_fence_drops_last_character :
  (forall raw : str,
     contains raw json_fence = true ->
     exists (i : nat) (before rest : str),
       first_at (strip raw) json_fence i
       /\ strip raw = before ++ json_fence ++ rest
       /\ length before = i
       /\ (contains rest fence = false ->
           find (strip raw) fence (find (strip raw) json_fence 0 + 7) = (-1)%Z
           /\ slice (strip raw) (find (strip raw) json_fence 0 + 7) (-1) = removelast rest
           /\ candidate raw = strip (removelast rest)
           /\ forall json_loads type_error_text generate_content c goal model_name,
                generate_content (mkCall model_name (build_prompt (c :: goal)) the_config)
                  = Return raw ->
                fst (generate_plan json_loads type_error_text generate_content
                       (c :: goal) model_name)
                = try_except
                    (parse_and_validate json_loads type_error_text (strip (removelast rest)))
                    any_exception (fun e => Return (ai_failure e))))
  /\
  (forall type_error_text c goal model_name,
     candidate raw_unclosed = lit "{" ++ q (lit "plan") ++ lit ":[]" /\
     fst (generate_plan Ref.loads type_error_text (answers raw_unclosed)
            (c :: goal) model_name)
     = Return (error_raw_dict
                 (invalid_json_prefix
                    ++ lit "Expecting ',' delimiter: line 1 column 11 (char 10)")
                 (lit "{" ++ q (lit "plan") ++ lit ":[]"))).
Proof.
  split.
  - intros raw Hraw.
    rewrite <- contains_strip_json_fence in Hraw.
    destruct (contains_first _ _ Hraw) as [i Hi].
    destruct (after_marker _ _ Hi) as (before & E & Hb).
    exists i, before, (skipn (i + 7) (strip raw)).
    split; [exact Hi|]. split; [exact E|]. split; [exact Hb|].
    intros Hno.
    pose proof (proj1 (contains_false_iff _ _) Hno) as Hnone.
    destruct (extract_json_unclosed _ _ Hi Hnone) as [Hfind Hext].
    destruct (json_fence_start _ _ Hi) as [Hs Hlen].
    rewrite Hs.
    split; [exact Hfind|].
    split; [now apply slice_to_minus_one|].
    split; [exact Hext|].
    intros json_loads tet ai c goal model_name Hai.
    rewrite (generate_plan_answer json_loads tet ai c goal model_name raw Hai).
    unfold candidate. now rewrite Hext.
  - intros tet c goal model_name. split; [reflexivity|].
    rewrite (generate_plan_answer Ref.loads tet (answers raw_unclosed)
               c goal model_name raw_unclosed eq_refl).
    reflexivity.
Qed.

Lemma unclosed_json_fence_witness :
  contains raw_unclosed json_fence = true
  /\ contains (skipn 7 raw_unclosed) fence = false
  /\ find (strip raw_unclosed) fence (find (strip raw_unclosed) json_fence 0 + 7) = (-1)%Z
  /\ candidate raw_unclosed = strip (removelast (skipn 7 raw_unclosed)).
Proof.
  split; [reflexivity|]. split; [reflexivity|].
  destruct (proj1 unclosed_json_fence_drops_last_character raw_unclosed eq_refl)
    as (i & before & rest & Hi & E & Hb & Hinner).
  assert (Hi0 : i = 0%nat).
  { destruct Hi as [_ Hmin].
    assert (H0 : occurs_at (strip raw_unclosed) json_fence 0).
    { exists [], (skipn 7 raw_unclosed). split; reflexivity. }
    apply Hmin in H0. lia. }
  subst i. destruct before as [|c before]; [|discriminate].
  assert (Hrest : rest = skipn 7 raw_unclosed).
  { change (strip raw_unclosed) with (json_fence ++ skipn 7 raw_unclosed) in E.
    cbn [app] in E. symmetry. exact (app_inv_head _ _ _ E). }
  subst rest.
  destruct (Hinner eq_refl) as (Hfind & _ & Hcand & _).
  split; [exact Hfind | exact Hcand].
Defined.

(** C5, as stated, fails: the collected lines joined by line breaks are
    not yet the text decoded, their white space at both ends is removed
    first.  In the response [```\n\f{}\n```] the one line collected is
    a form feed followed by [{}], which is not JSON; the program
    decodes [{}] and returns the "unexpected format" failure. *)
Lemma generic_fence_counterexample :
  contains raw_form_feed json_fence = false
  /\ startswith raw_form_feed fence = true
  /\ join nl (collected (split (strip raw_form_feed) LF)) = FF :: lit "{}"
  /\ Ref.loads (FF :: lit "{}")
     = Raise (mkExn JSONDecodeError (lit "Expecting value: line 1 column 1 (char 0)"))
  /\ candidate raw_form_feed = lit "{}"
  /\ run raw_form_feed = Return (error_raw_dict unexpected_format_msg (lit "{}")).
Proof.
  repeat split; reflexivity.
Qed.

(** C5.  A response text without [```json] that begins with the fence
    [```] is scanned, once trimmed, line by line: the "inside code
    block" flag starts cleared and is toggled on each line that starts
    with a fence, the other lines are collected exactly while the flag
    is set, and the collected lines joined by line breaks, with the
    white space at both ends of the result removed, are the text
    decoded.  For [```\n{"plan":[{"task_id":1}]}\n```] the two fence
    lines go and the JSON between them is decoded. *)
Theorem generic_fence_extraction :
  (forall raw : str,
     contains raw json_fence = false ->
     startswith raw fence = true ->
     let lines := split (strip raw) LF in
     scan_lines lines false [] = collected lines
     /\ candidate raw = strip (join nl (collected lines))
     /\ forall json_loads type_error_text generate_content c goal model_name,
          generate_content (mkCall model_name (build_prompt (c :: goal)) the_config)
            = Return raw ->
          fst (generate_plan json_loads type_error_text generate_content
                 (c :: goal) model_name)
          = try_except
              (parse_and_validate json_loads type_error_text
                 (strip (join nl (collected lines))))
              any_exception (fun e => Return (ai_failure e)))
  /\
  (forall type_error_text c goal model_name,
     collected (split (strip raw_generic_fenced) LF) = [plan_one_json]
     /\ candidate raw_generic_fenced = plan_one_json
     /\ fst (generate_plan Ref.loads type_error_text (answers raw_generic_fenced)
               (c :: goal) model_name)
        = Return (VDict [(lit "plan", VList [VDict [(lit "task_id", VInt 1)]])])).
Proof.
  split.
  - intros raw Hno Hfence lines.
    assert (Hc : candidate raw = strip (join nl (collected lines))).
    { unfold candidate, extract_json.
      rewrite contains_strip_json_fence, Hno.
      rewrite (startswith_strip_fence _ Hfence).
      fold lines. now rewrite scan_lines_collected. }
    split; [apply scan_lines_collected|]. split; [exact Hc|].
    intros json_loads tet ai c goal model_name Hai.
    rewrite (generate_plan_answer json_loads tet ai c goal model_name raw Hai).
    now rewrite Hc.
  - intros tet c goal model_name. split; [reflexivity|]. split; [reflexivity|].
    rewrite (generate_plan_answer Ref.loads tet (answers raw_generic_fenced)
               c goal model_name raw_generic_fenced eq_refl).
    reflexivity.
Qed.

Lemma generic_fence_extraction_witness :
  contains raw_generic_fenced json_fence = false /\
  startswith raw_generic_fenced fence = true /\
  candidate raw_generic_fenced
  = strip (join nl (collected (split (strip raw_generic_fenced) LF))).
Proof.
  split; [reflexivity|]. split; [reflexivity|].
  exact (proj1 (proj2 (proj1 generic_fence_extraction raw_generic_fenced eq_refl eq_refl))).
Defined.

Lemma candidate_plain (raw : str) :
  strip raw = raw -> contains raw json_fence = false -> startswith raw fence = false ->
  candidate raw = raw.
Proof.
  intros Hs Hc Hf. unfold candidate. rewrite Hs. now apply extract_json_plain.
Qed.

(** C2, as stated, fails twice.  The response [5] decodes, holds no
    ["plan"] list, and the failure returned is the one of the model
    call, with no ["raw"] entry.  The response
    [```json\n{"tasks": []}\n```] gets the "unexpected format" failure,
    whose ["raw"] entry is the extracted text, not the response. *)
Lemma unexpected_format_counterexample :
  Ref.loads (candidate (lit "5")) = Return (VInt 5)
  /\ run (lit "5")
     = Return (error_dict (ai_error_prefix ++ lit "argument of type 'int' is not iterable"))
  /\ Ref.loads (candidate raw_fenced_tasks) = Return (VDict [(lit "tasks", VList [])])
  /\ run raw_fenced_tasks = Return (error_raw_dict unexpected_format_msg tasks_json)
  /\ tasks_json <> raw_fenced_tasks.
Proof.
  repeat split; try reflexivity. discriminate.
Qed.

(** C2, amended.  When the extracted text decodes to an object: with
    no ["plan"] entry that is a list, [generate_plan] returns the
    "unexpected format" failure with the extracted text under ["raw"]
    (the response itself when it has no fence and no surrounding white
    space); with such an entry, the decoded object is returned as it
    is.  For the response [{"tasks": []}] the failure carries that
    text. *)
Theorem object_validation :
  (forall json_loads type_error_text generate_content c goal model_name raw d,
     generate_content (mkCall model_name (build_prompt (c :: goal)) the_config)
       = Return raw ->
     json_loads (candidate raw) = Return (VDict d) ->
     let result := fst (generate_plan json_loads type_error_text generate_content
                          (c :: goal) model_name) in
     (forall items, dict_get d (lit "plan") = Some (VList items) ->
        result = Return (VDict d))
     /\ ((forall items, dict_get d (lit "plan") <> Some (VList items)) ->
         result = Return (error_raw_dict unexpected_format_msg (candidate raw)))
     /\ (strip raw = raw -> contains raw json_fence = false ->
         startswith raw fence = false -> candidate raw = raw))
  /\
  (forall type_error_text c goal model_name,
     fst (generate_plan Ref.loads type_error_text (answers tasks_json)
            (c :: goal) model_name)
     = Return (error_raw_dict unexpected_format_msg tasks_json)).
Proof.
  split.
  - intros json_loads tet ai c goal model_name raw d Hai Hloads result.
    assert (Hr : result =
                 match dict_get d (lit "plan") with
                 | Some (VList _) => Return (VDict d)
                 | _ => Return (error_raw_dict unexpected_format_msg (candidate raw))
                 end).
    { unfold result.
      rewrite (generate_plan_answer json_loads tet ai c goal model_name raw Hai).
      rewrite (validate_dict json_loads tet (candidate raw) d Hloads).
      destruct (dict_get d (lit "plan")) as [[]|]; reflexivity. }
    split; [|split].
    + intros items Hp. now rewrite Hr, Hp.
    + intros Hp. rewrite Hr.
      destruct (dict_get d (lit "plan")) as [[]|]; try reflexivity.
      exfalso. now apply (Hp items).
    + apply candidate_plain.
  - intros tet c goal model_name.
    rewrite (generate_plan_answer Ref.loads tet (answers tasks_json)
               c goal model_name tasks_json eq_refl).
    reflexivity.
Qed.

Lemma object_validation_witness :
  Ref.loads (candidate tasks_json) = Return (VDict [(lit "tasks", VList [])])
  /\ run tasks_json = Return (error_raw_dict unexpected_format_msg (candidate tasks_json)).
Proof.
  split; [reflexivity|].
  refine (proj1 (proj2 (proj1 object_validation Ref.loads cpython_type_error_text
                          (answers tasks_json) (hd 0%N sample_goal) (tl sample_goal)
                          sample_model tasks_json [(lit "tasks", VList [])]
                          eq_refl eq_refl)) _).
  intros items. discriminate.
Defined.

(** C3, as stated, fails on a fenced response: for
    [```json\nnot json\n```] the ["raw"] entry of the failure is the
    extracted text [not json], not the response. *)
Lemma invalid_json_counterexample :
  run raw_fenced_not_json
  = Return (error_raw_dict
              (invalid_json_prefix ++ lit "Expecting value: line 1 column 1 (char 0)")
              raw_not_json)
  /\ raw_not_json <> raw_fenced_not_json.
Proof.
  split; [reflexivity | discriminate].
Qed.

(** C3, amended.  When decoding the extracted text raises
    [JSONDecodeError], [generate_plan] returns the "invalid JSON"
    failure: its message ends with the decoder's own text, and its
    ["raw"] entry is the extracted text, which is the response itself
    when that has no fence and no surrounding white space.  For the
    response [not json] the ["raw"] entry is [not json]. *)
Theorem invalid_json_failure :
  (forall json_loads type_error_text generate_content c goal model_name raw e,
     generate_content (mkCall model_name (build_prompt (c :: goal)) the_config)
       = Return raw ->
     json_loads (candidate raw) = Raise e ->
     exn_cls e = JSONDecodeError ->
     fst (generate_plan json_loads type_error_text generate_content (c :: goal) model_name)
     = Return (error_raw_dict (invalid_json_prefix ++ exn_text e) (candidate raw))
     /\ (strip raw = raw -> contains raw json_fence = false ->
         startswith raw fence = false -> candidate raw = raw))
  /\
  (forall type_error_text c goal model_name,
     fst (generate_plan Ref.loads type_error_text (answers raw_not_json)
            (c :: goal) model_name)
     = Return (error_raw_dict
                 (invalid_json_prefix ++ lit "Expecting value: line 1 column 1 (char 0)")
                 raw_not_json)).
Proof.
  split.
  - intros json_loads tet ai c goal model_name raw e Hai Hloads Hcls.
    split; [|apply candidate_plain].
    rewrite (generate_plan_answer json_loads tet ai c goal model_name raw Hai).
    rewrite (validate_decode_error json_loads tet (candidate raw) e Hloads);
      [reflexivity|].
    unfold is_JSONDecodeError. now rewrite Hcls.
  - intros tet c goal model_name.
    rewrite (generate_plan_answer Ref.loads tet (answers raw_not_json)
               c goal model_name raw_not_json eq_refl).
    reflexivity.
Qed.

Lemma invalid_json_failure_witness :
  Ref.loads (candidate raw_not_json)
  = Raise (Ref.decode_error raw_not_json (lit "Expecting value") 0)
  /\ run raw_not_json
     = Return (error_raw_dict
                 (invalid_json_prefix
                    ++ exn_text (Ref.decode_error raw_not_json (lit "Expecting value") 0))
                 (candidate raw_not_json)).
Proof.
  split; [reflexivity|].
  exact (proj1 (proj1 invalid_json_failure Ref.loads cpython_type_error_text
                  (answers raw_not_json) (hd 0%N sample_goal) (tl sample_goal)
                  sample_model raw_not_json
                  (Ref.decode_error raw_not_json (lit "Expecting value") 0)
                  eq_refl eq_refl eq_refl)).
Defined.

(** C9, as stated, fails on a top-level array: the response [[]]
    decodes to a value that is no mapping, the membership test is
    simply false, and the failure returned is "unexpected format", with
    its ["raw"] entry. *)
Lemma non_mapping_counterexample :
  Ref.loads (candidate (lit "[]")) = Return (VList [])
  /\ isinstance_dict (VList []) = false
  /\ run (lit "[]") = Return (error_raw_dict unexpected_format_msg (lit "[]"))
  /\ get_field (error_raw_dict unexpected_format_msg (lit "[]")) (lit "raw")
     = Some (VStr (lit "[]")).
Proof.
  repeat split; reflexivity.
Qed.

(** C9, amended.  When the extracted text decodes to a number, a
    boolean or null, the membership test of line 178 raises
    [TypeError], the outer handler catches it, and the failure returned
    is the one of the model call, with no ["raw"] entry; the same
    failure results, from the subscript, for an array with the element
    ["plan"] or a string containing [plan].  An array or a string
    without it gets the "unexpected format" failure.  The number [5] is
    an instance of the first case. *)
Theorem non_mapping_validation :
  (forall json_loads type_error_text generate_content c goal model_name raw v,
     generate_content (mkCall model_name (build_prompt (c :: goal)) the_config)
       = Return raw ->
     json_loads (candidate raw) = Return v ->
     let result := fst (generate_plan json_loads type_error_text generate_content
                          (c :: goal) model_name) in
     match v with
     | VDict _ => True
     | VList items =>
         if existsb (fun item => eq_str item (lit "plan")) items
         then result = Return (ai_failure (mkExn TypeError (type_error_text (BadSubscript v))))
         else result = Return (error_raw_dict unexpected_format_msg (candidate raw))
     | VStr s =>
         if contains s (lit "plan")
         then result = Return (ai_failure (mkExn TypeError (type_error_text (BadSubscript v))))
         else result = Return (error_raw_dict unexpected_format_msg (candidate raw))
     | VNone | VBool _ | VInt _ | VFloat _ =>
         result = Return (ai_failure (mkExn TypeError (type_error_text (NotIterable v))))
     end)
  /\
  (forall e : exn,
     ai_failure e = VDict [(lit "error", VStr (ai_error_prefix ++ exn_text e))]
     /\ get_field (ai_failure e) (lit "raw") = None)
  /\
  (forall type_error_text c goal model_name,
     fst (generate_plan Ref.loads type_error_text (answers (lit "5")) (c :: goal) model_name)
     = Return (ai_failure (mkExn TypeError (type_error_text (NotIterable (VInt 5)))))).
Proof.
  split; [|split].
  - intros json_loads tet ai c goal model_name raw v Hai Hloads result.
    unfold result.
    rewrite (generate_plan_answer json_loads tet ai c goal model_name raw Hai).
    destruct v as [| b | n | f | s | items | d]; try exact I.
    + now rewrite (validate_not_iterable json_loads tet _ _ Hloads I).
    + now rewrite (validate_not_iterable json_loads tet _ _ Hloads I).
    + now rewrite (validate_not_iterable json_loads tet _ _ Hloads I).
    + now rewrite (validate_not_iterable json_loads tet _ _ Hloads I).
    + rewrite (validate_sequence json_loads tet _ _ _ Hloads eq_refl).
      now destruct (contains s (lit "plan")).
    + rewrite (validate_sequence json_loads tet _ _ _ Hloads eq_refl).
      now destruct (existsb _ items).
  - intros e. split; reflexivity.
  - intros tet c goal model_name.
    rewrite (generate_plan_answer Ref.loads tet (answers (lit "5"))
               c goal model_name (lit "5") eq_refl).
    reflexivity.
Qed.

Lemma non_mapping_validation_witness :
  Ref.loads (candidate (lit "5")) = Return (VInt 5)
  /\ run (lit "5")
     = Return (ai_failure
                 (mkExn TypeError (cpython_type_error_text (NotIterable (VInt 5))))).
Proof.
  split; [reflexivity|].
  exact (proj1 non_mapping_validation Ref.loads cpython_type_error_text
           (answers (lit "5")) (hd 0%N sample_goal) (tl sample_goal)
           sample_model (lit "5") (VInt 5) eq_refl eq_refl).
Defined.

(** C6.  For the empty goal [generate_plan] returns the record
    [{"error": "Goal cannot be empty."}] and makes no call to the
    model; for a goal of at least one character it makes exactly one
    call, with the prompt built from the goal, and what it returns
    comes from that call (here: from the exception the call raises). *)
Theorem empty_goal_guard :
  forall (json_loads : str -> outcome value) (type_error_text : type_error -> str)
         (generate_content : ai_call -> outcome str) (model_name : str),
    generate_plan json_loads type_error_text generate_content [] model_name
    = (Return (VDict [(lit "error", VStr (lit "Goal cannot be empty."))]), [])
    /\
    forall (c : N) (goal : str),
      let call := mkCall model_name (build_prompt (c :: goal)) the_config in
      snd (generate_plan json_loads type_error_text generate_content (c :: goal) model_name)
      = [call]
      /\ (forall e, generate_content call = Raise e ->
            fst (generate_plan json_loads type_error_text generate_content
                   (c :: goal) model_name)
            = Return (ai_failure e))
      /\ (forall raw, generate_content call = Return raw ->
            fst (generate_plan json_loads type_error_text generate_content
                   (c :: goal) model_name)
            = try_except (parse_and_validate json_loads type_error_text (candidate raw))
                any_exception (fun e => Return (ai_failure e))).
Proof.
  intros json_loads tet ai model_name. split; [reflexivity|].
  intros c goal call. split; [reflexivity|]. split.
  - intros e He. now apply generate_plan_raise.
  - intros raw Hraw. now apply generate_plan_answer.
Qed.

Lemma empty_goal_guard_witness :
  fst (generate_plan Ref.loads cpython_type_error_text (raises Mock.unavailable)
         sample_goal sample_model)
  = Return (ai_failure Mock.unavailable)
  /\ run raw_json_fenced = Return (VDict [(lit "plan", VList [])]).
Proof.
  pose proof (proj2 (empty_goal_guard Ref.loads cpython_type_error_text
                       (raises Mock.unavailable) sample_model)
                (hd 0%N sample_goal) (tl sample_goal)) as [_ [Hraise _]].
  pose proof (proj2 (empty_goal_guard Ref.loads cpython_type_error_text
                       (answers raw_json_fenced) sample_model)
                (hd 0%N sample_goal) (tl sample_goal)) as [_ [_ Hanswer]].
  split.
  - exact (Hraise Mock.unavailable eq_refl).
  - exact (Hanswer raw_json_fenced eq_refl).
Defined.

(* ------------------------------------------------------------------ *)
(** *** The stable sort                                                *)
(* ------------------------------------------------------------------ *)

Section Sorting.

Variable A : Type.
Variable key : A -> Z.

Lemma insert_sorted_perm (x : A) (l : list A) :
  Permutation (x :: l) (insert_sorted key x l).
Proof.
  induction l as [|y l IH]; simpl; [reflexivity|].
  destruct (key x <=? key y)%Z; [reflexivity|].
  rewrite perm_swap. now constructor.
Qed.

Lemma sorted_perm (l : list A) : Permutation l (sorted key l).
Proof.
  induction l as [|x l IH]; simpl; [reflexivity|].
  rewrite <- insert_sorted_perm. now constructor.
Qed.

Lemma insert_sorted_ordered (x : A) (l : list A) :
  StronglySorted (key_le key) l -> StronglySorted (key_le key) (insert_sorted key x l).
Proof.
  induction l as [|y l IH]; intros H; simpl.
  - repeat constructor.
  - destruct (Z.leb_spec (key x) (key y)) as [Hle | Hgt].
    + constructor; [exact H|].
      inversion H as [|? ? Hs Hall]; subst.
      constructor; [exact Hle|].
      eapply Forall_impl; [|exact Hall]. unfold key_le. intros a Ha. lia.
    + inversion H as [|? ? Hs Hall]; subst.
      constructor; [now apply IH|].
      eapply Permutation_Forall; [apply insert_sorted_perm|].
      constructor; [unfold key_le; lia | exact Hall].
Qed.

Lemma sorted_ordered (l : list A) : StronglySorted (key_le key) (sorted key l).
Proof.
  induction l as [|x l IH]; simpl; [constructor | now apply insert_sorted_ordered].
Qed.

(** Elements of equal key keep their order. *)
Lemma insert_sorted_stable (k : Z) (x : A) (l : list A) :
  filter (fun a => (key a =? k)%Z) (insert_sorted key x l)
  = filter (fun a => (key a =? k)%Z) (x :: l).
Proof.
  induction l as [|y l IH]; [reflexivity|].
  simpl insert_sorted.
  destruct (Z.leb_spec (key x) (key y)) as [Hle | Hgt]; [reflexivity|].
  simpl filter in *. rewrite IH.
  destruct (Z.eqb_spec (key x) k), (Z.eqb_spec (key y) k); try reflexivity. lia.
Qed.

Lemma sorted_stable (k : Z) (l : list A) :
  filter (fun a => (key a =? k)%Z) (sorted key l) = filter (fun a => (key a =? k)%Z) l.
Proof.
  induction l as [|x l IH]; [reflexivity|].
  simpl sorted. rewrite insert_sorted_stable. simpl. now rewrite IH.
Qed.

End Sorting.

(* ------------------------------------------------------------------ *)
(** *** Display of task records                                        *)
(* ------------------------------------------------------------------ *)

Lemma sorted_map_keyed (A : Type) (key : A -> Z) (l : list A) :
  sorted fst (map (fun x => (key x, x)) l) = map (fun x => (key x, x)) (sorted key l).
Proof.
  assert (Hins : forall x l',
             insert_sorted fst (key x, x) (map (fun a => (key a, a)) l')
             = map (fun a => (key a, a)) (insert_sorted key x l')).
  { intros x l'. induction l' as [|y l' IH]; [reflexivity|].
    cbn [map insert_sorted fst]. destruct (key x <=? key y)%Z; [reflexivity|].
    cbn [map]. now rewrite IH. }
  induction l as [|x l IH]; [reflexivity|].
  cbn [map sorted]. now rewrite IH, Hins.
Qed.

Lemma sorted_keyed (A : Type) (key : A -> Z) (l : list A) :
  map snd (sorted fst (map (fun x => (key x, x)) l)) = sorted key l.
Proof.
  rewrite sorted_map_keyed, map_map. cbn [snd]. apply map_id.
Qed.

Lemma int_keyed_ints (key : value -> Z) (l : list value) :
  int_keyed (map (fun x => (VInt (key x), x)) l) = Some (map (fun x => (key x, x)) l).
Proof.
  induction l as [|x l IH]; [reflexivity|].
  cbn [map int_keyed int_key]. now rewrite IH.
Qed.

(** The key of an object with an integer id is that id. *)
Lemma id_key (x : value) :
  has_integer_id x = true ->
  py_get x (lit "task_id") (VInt 0) = Return (VInt (id_of x)).
Proof.
  destruct x as [| b | n | f | s | items | d]; try discriminate.
  unfold has_integer_id, py_get, id_of. intros H.
  destruct (dict_get d (lit "task_id")) as [[| b | n | f | s | items | d']|];
    try discriminate; reflexivity.
Qed.

Lemma ids_keyed (l : list value) :
  forallb has_integer_id l = true ->
  for_each (fun x => k <- py_get x (lit "task_id") (VInt 0) ;; Return (k, x)) l
  = Return (map (fun x => (VInt (id_of x), x)) l).
Proof.
  induction l as [|x l IH]; [reflexivity|].
  cbn [forallb]. intros H. apply andb_true_iff in H as [Hx Hl].
  cbn [for_each map]. rewrite (id_key x Hx). cbn [bind].
  now rewrite (IH Hl).
Qed.

Lemma records_have_ids (l : list value) :
  forallb task_record l = true -> forallb has_integer_id l = true.
Proof.
  rewrite !forallb_forall. intros H x Hx.
  specialize (H x Hx). unfold task_record in H. now apply andb_true_iff in H as [H _].
Qed.

Lemma records_permuted (l l' : list value) :
  Permutation l l' -> forallb task_record l = true -> forallb task_record l' = true.
Proof.
  intros Hperm H. rewrite forallb_forall in *.
  intros x Hx. apply H. eapply Permutation_in; [apply Permutation_sym; exact Hperm | exact Hx].
Qed.

Section DisplayFacts.

Variable py_repr : value -> str.
Variable float_bool : str -> bool.
Variable list_sort : list (value * value) -> outcome (list value).

Local Abbreviation show := (display_plan py_repr float_bool list_sort).
Local Abbreviation show_tasks := (render_tasks py_repr float_bool).
Local Abbreviation show_task := (render_task py_repr float_bool).

(** Objects with integer ids are sorted by id, whatever the runtime's
    sort does with other keys. *)
Lemma py_sorted_ids (l : list value) :
  forallb has_integer_id l = true ->
  py_sorted list_sort (VList l) (fun x => py_get x (lit "task_id") (VInt 0))
  = Return (sorted id_of l).
Proof.
  intros H. unfold py_sorted. cbn [py_iter bind].
  rewrite (ids_keyed l H). cbn [bind].
  now rewrite int_keyed_ints, sorted_keyed.
Qed.

Lemma display_plan_ids (l : list value) :
  forallb has_integer_id l = true -> l <> [] ->
  show (VList l) = show_tasks (sorted id_of l).
Proof.
  intros H Hne. unfold display_plan.
  destruct l as [|x l]; [contradiction|].
  cbn [py_bool negb]. now rewrite (py_sorted_ids _ H).
Qed.

Lemma display_plan_records (l : list value) :
  forallb task_record l = true -> l <> [] ->
  show (VList l) = show_tasks (sorted id_of l).
Proof.
  intros H. apply display_plan_ids. now apply records_have_ids.
Qed.

(** The dependency line of a list of integers. *)
Lemma deps_str_ints (items : list value) :
  forallb is_int items = true ->
  deps_str py_repr float_bool (VList items)
  = Return (match flat_map int_of items with
            | [] => lit "None"
            | id :: ids => join (lit ", ") (map str_of_int (id :: ids))
            end).
Proof.
  intros H.
  assert (Hmap : map (py_str py_repr) items = map str_of_int (flat_map int_of items)).
  { induction items as [|x items IH]; [reflexivity|].
    cbn [forallb] in H. apply andb_true_iff in H as [Hx Hl].
    destruct x as [| b | n | f | s | xs | d]; try discriminate.
    cbn [map flat_map int_of app py_str]. now rewrite (IH Hl). }
  destruct items as [|x items]; [reflexivity|].
  unfold deps_str. cbn [py_bool py_iter bind]. rewrite Hmap.
  cbn [forallb] in H. apply andb_true_iff in H as [Hx _].
  destruct x as [| b | n | f | s | xs | d]; try discriminate.
  reflexivity.
Qed.

Lemma render_task_record (x : value) :
  task_record x = true ->
  exists shown, show_task x = Return shown /\ shows_dependencies x shown.
Proof.
  unfold task_record. intros H. apply andb_true_iff in H as [_ Hdeps].
  destruct x as [| b | n | f | s | items | d]; try discriminate.
  unfold has_integer_dependencies in Hdeps.
  unfold render_task, shows_dependencies, dependency_line, dependency_ids, py_get.
  cbn [bind].
  destruct (dict_get d (lit "dependencies")) as [[| b | n | f | s | items | d']|];
    try discriminate.
  - rewrite (deps_str_ints items Hdeps). cbn [bind].
    eexists. split; [reflexivity|]. eexists. eexists. reflexivity.
  - eexists. split; [reflexivity|]. eexists. eexists. reflexivity.
Qed.

Lemma render_tasks_records (l : list value) :
  forallb task_record l = true ->
  exists shown, show_tasks l = (Return tt, shown) /\ Forall2 shows_dependencies l shown.
Proof.
  induction l as [|x l IH]; intros H.
  - exists []. split; [reflexivity | constructor].
  - cbn [forallb] in H. apply andb_true_iff in H as [Hx Hl].
    destruct (render_task_record x Hx) as (w & Hw & Hshows).
    destruct (IH Hl) as (ws & Hws & Hall).
    exists (w :: ws). split; [|now constructor].
    cbn [render_tasks]. now rewrite Hw, Hws.
Qed.

(** The loop shows the records that come first, then goes on. *)
Lemma render_tasks_app (l rest : list value) :
  forallb task_record l = true ->
  exists shown,
    Forall2 shows_dependencies l shown
    /\ show_tasks (l ++ rest)
       = (fst (show_tasks rest), shown ++ snd (show_tasks rest)).
Proof.
  induction l as [|x l IH]; intros H.
  - exists []. split; [constructor|]. cbn [app]. now destruct (show_tasks rest).
  - cbn [forallb] in H. apply andb_true_iff in H as [Hx Hl].
    destruct (render_task_record x Hx) as (w & Hw & Hshows).
    destruct (IH Hl) as (ws & Hall & Hws).
    exists (w :: ws). split; [now constructor|].
    cbn [app render_tasks]. now rewrite Hw, Hws.
Qed.

End DisplayFacts.

(** C7.  For every sequence of task records, [display_plan] ends
    normally and shows one expander per task (for no task at all, the
    warning that the plan is empty), the tasks in ascending order of
    [task_id], a missing [task_id] counting as 0 (and tasks of equal id
    staying in their order); the dependency line of a task is its
    dependency ids joined by [", "], or [None] when the [dependencies]
    entry is missing or empty.  Tasks with ids 3, 1, 2 are shown in the
    order 1, 2, 3; dependencies [1, 2] are shown as [1, 2]. *)
Theorem display_plan_order :
  (forall (py_repr : value -> str) (float_bool : str -> bool)
          (list_sort : list (value * value) -> outcome (list value))
          (tasks : list value),
     forallb task_record tasks = true -> tasks <> [] ->
     exists (ordered : list value) (shown : list widget),
       display_plan py_repr float_bool list_sort (VList tasks) = (Return tt, shown)
       /\ Permutation tasks ordered
       /\ StronglySorted (fun a b => (id_of a <= id_of b)%Z) ordered
       /\ (forall k, filter (fun t => (id_of t =? k)%Z) ordered
                     = filter (fun t => (id_of t =? k)%Z) tasks)
       /\ Forall2 shows_dependencies ordered shown)
  /\ (forall py_repr float_bool list_sort,
        display_plan py_repr float_bool list_sort (VList [])
        = (Return tt, [Warning (lit "The plan is empty.")]))
  /\ (forall d n, dict_get d (lit "task_id") = Some (VInt n) -> id_of (VDict d) = n)
  /\ (forall d, dict_get d (lit "task_id") = None -> id_of (VDict d) = 0%Z)
  /\ (forall d, dict_get d (lit "dependencies") = None ->
        dependency_line (VDict d) = lit "None")
  /\ (forall d, dict_get d (lit "dependencies") = Some (VList []) ->
        dependency_line (VDict d) = lit "None")
  /\ (forall d id ids,
        dict_get d (lit "dependencies") = Some (VList (map VInt (id :: ids))) ->
        dependency_line (VDict d) = join (lit ", ") (map str_of_int (id :: ids)))
  /\ (forall py_repr float_bool list_sort,
        display_plan py_repr float_bool list_sort
          (VList [task_with_id 3; task_with_id 1; task_with_id 2])
        = (Return tt, [ plain_expander (lit "1") (lit "None");
                        plain_expander (lit "2") (lit "None");
                        plain_expander (lit "3") (lit "None") ]))
  /\ (forall py_repr float_bool list_sort,
        display_plan py_repr float_bool list_sort (VList [task_with_deps [1; 2]%Z])
        = (Return tt, [plain_expander (lit "1") (lit "1, 2")])).
Proof.
  split; [|repeat split].
  - intros py_repr float_bool list_sort tasks H Hne.
    assert (Hsorted : forallb task_record (sorted id_of tasks) = true).
    { eapply records_permuted; [apply sorted_perm | exact H]. }
    destruct (render_tasks_records py_repr float_bool _ Hsorted) as (shown & Hshown & Hall).
    exists (sorted id_of tasks), shown.
    split; [rewrite (display_plan_records py_repr float_bool list_sort tasks H Hne);
            exact Hshown|].
    split; [apply sorted_perm|].
    split; [apply sorted_ordered|].
    split; [intros k; apply sorted_stable | exact Hall].
  - intros d n H. unfold id_of. now rewrite H.
  - intros d H. unfold id_of. now rewrite H.
  - intros d H. unfold dependency_line, dependency_ids. now rewrite H.
  - intros d H. unfold dependency_line, dependency_ids. now rewrite H.
  - intros d id ids H. unfold dependency_line, dependency_ids. rewrite H.
    assert (E : forall l, flat_map int_of (map VInt l) = l).
    { induction l as [|x l IH]; [reflexivity|]. cbn [map flat_map int_of app]. now rewrite IH. }
    now rewrite E.
Qed.

Lemma display_plan_order_witness :
  forallb task_record [task_with_id 3; task_with_id 1; task_with_id 2] = true
  /\ [task_with_id 3; task_with_id 1; task_with_id 2] <> []
  /\ forall py_repr float_bool list_sort,
       exists ordered shown,
         display_plan py_repr float_bool list_sort
           (VList [task_with_id 3; task_with_id 1; task_with_id 2]) = (Return tt, shown)
         /\ StronglySorted (fun a b => (id_of a <= id_of b)%Z) ordered
         /\ Forall2 shows_dependencies ordered shown.
Proof.
  split; [reflexivity|]. split; [discriminate|].
  intros py_repr float_bool list_sort.
  destruct (proj1 display_plan_order py_repr float_bool list_sort
              [task_with_id 3; task_with_id 1; task_with_id 2] eq_refl)
    as (ordered & shown & Hshow & _ & Hsorted & _ & Hall); [discriminate|].
  exists ordered, shown. split; [exact Hshow|]. split; [exact Hsorted | exact Hall].
Defined.

(* ------------------------------------------------------------------ *)
(** *** The database functions                                         *)
(* ------------------------------------------------------------------ *)

Lemma answers_round_trip_data {Store : Type} (remote : outcome value * Store) :
  answers_round_trip remote
    (match remote with
     | (Return data, db') => (Return (success_data data), db')
     | (Raise e, db') => (Return (failure e), db')
     end).
Proof.
  destruct remote as [[data | e] db']; split; try reflexivity.
  eexists. split; reflexivity.
Qed.

(** C4.  Each of the four database functions returns a record and
    never raises: when the round trip to the table raises, the record
    has [success] false and the exception's text as [error]; when it
    returns, the record has [success] true. *)
Theorem database_functions_catch_everything :
  forall (Store : Type) (execute : query -> Store -> outcome value * Store) (db : Store),
    (forall goal model_name plan_json,
       answers_round_trip (execute (insert_query goal model_name plan_json) db)
         (save_plan_to_db execute goal model_name plan_json db))
    /\ (forall limit,
          answers_round_trip (execute (recent_query limit) db)
            (get_recent_plans execute limit db))
    /\ (forall search_term,
          answers_round_trip (execute (search_query search_term) db)
            (search_plans_by_goal execute search_term db))
    /\ (forall plan_id,
          answers_round_trip (execute (delete_query plan_id) db)
            (delete_plan execute plan_id db)).
Proof.
  intros Store execute db. split; [|split; [|split]].
  - intros goal model_name plan_json.
    apply (answers_round_trip_data (execute (insert_query goal model_name plan_json) db)).
  - intros limit.
    apply (answers_round_trip_data (execute (recent_query limit) db)).
  - intros search_term.
    apply (answers_round_trip_data (execute (search_query search_term) db)).
  - intros plan_id. unfold delete_plan.
    change (Supabase.eq _ _ _) with (delete_query plan_id).
    destruct (execute (delete_query plan_id) db) as [[data | e] db']; split;
      try reflexivity.
    eexists. split; reflexivity.
Qed.

Lemma mock_delete_absent (rows : list value) (next : Z) (plan_id : value) :
  (forall r, In r rows -> Mock.matches r (Eq (lit "id") plan_id) = false) ->
  Mock.execute (delete_query plan_id) (Mock.mkStore rows next true)
  = (Return (VList []), Mock.mkStore rows next true).
Proof.
  intros H. unfold Mock.execute. simpl.
  assert (Hsel : forall r, In r rows -> Mock.selected (delete_query plan_id) r = false).
  { intros r Hr. unfold Mock.selected, delete_query. cbn [q_filters forallb].
    now rewrite (H r Hr). }
  assert (E1 : filter (Mock.selected (delete_query plan_id)) rows = []).
  { clear H. induction rows as [|r rows IH]; [reflexivity|]. simpl.
    rewrite (Hsel r (or_introl eq_refl)). apply IH.
    intros r' Hr'. apply Hsel. now right. }
  assert (E2 : filter (fun r => negb (Mock.selected (delete_query plan_id) r)) rows = rows).
  { clear H E1. induction rows as [|r rows IH]; [reflexivity|]. simpl.
    rewrite (Hsel r (or_introl eq_refl)). simpl. f_equal. apply IH.
    intros r' Hr'. apply Hsel. now right. }
  now rewrite E1, E2.
Qed.

(** C10.  Whenever the delete round trip returns, whatever it removed,
    [delete_plan] returns exactly [{"success": True}]: the record has
    no entry but [success].  In particular, on a table none of whose
    rows has the identifier, the call changes nothing and the result is
    still [{"success": True}]. *)
Theorem delete_plan_success_without_removal :
  (forall (Store : Type) (execute : query -> Store -> outcome value * Store)
          (plan_id data : value) (db db' : Store),
     execute (delete_query plan_id) db = (Return data, db') ->
     delete_plan execute plan_id db = (Return (VDict [(lit "success", VBool true)]), db'))
  /\
  (forall (rows : list value) (next : Z) (plan_id : value),
     (forall r, In r rows -> Mock.matches r (Eq (lit "id") plan_id) = false) ->
     delete_plan Mock.execute plan_id (Mock.mkStore rows next true)
     = (Return (VDict [(lit "success", VBool true)]), Mock.mkStore rows next true))
  /\ get_field (VDict [(lit "success", VBool true)]) (lit "data") = None.
Proof.
  split; [|split].
  - intros Store execute plan_id data db db' H. unfold delete_plan.
    change (Supabase.eq _ _ _) with (delete_query plan_id). now rewrite H.
  - intros rows next plan_id H. unfold delete_plan.
    change (Supabase.eq _ _ _) with (delete_query plan_id).
    now rewrite (mock_delete_absent rows next plan_id H).
  - reflexivity.
Qed.

Lemma delete_plan_success_witness :
  Mock.execute (delete_query (VInt 7)) (Mock.mkStore [sample_row] 2 true)
  = (Return (VList []), Mock.mkStore [sample_row] 2 true)
  /\ delete_plan Mock.execute (VInt 7) (Mock.mkStore [sample_row] 2 true)
     = (Return (VDict [(lit "success", VBool true)]), Mock.mkStore [sample_row] 2 true)
  /\ delete_plan Mock.execute (VInt 7) (Mock.mkStore [sample_row; sample_row] 2 true)
     = (Return (VDict [(lit "success", VBool true)]),
        Mock.mkStore [sample_row; sample_row] 2 true).
Proof.
  split; [reflexivity|]. split.
  - exact (proj1 delete_plan_success_without_removal Mock.store Mock.execute
             (VInt 7) (VList []) (Mock.mkStore [sample_row] 2 true)
             (Mock.mkStore [sample_row] 2 true) eq_refl).
  - apply (proj1 (proj2 delete_plan_success_without_removal)).
    intros r [<- | [<- | []]]; reflexivity.
Defined.


(* ================================================================== *)
(** ** Further properties                                              *)
(* ================================================================== *)

(** What the inner [try] can return. *)
Lemma validate_cases (json_loads : str -> outcome value)
    (type_error_text : type_error -> str) (text : str) (v : value) :
  parse_and_validate json_loads type_error_text text = Return v ->
  v = error_raw_dict unexpected_format_msg text
  \/ (exists e, v = error_raw_dict (invalid_json_prefix ++ exn_text e) text)
  \/ (exists d items,
        v = VDict d /\ json_loads text = Return (VDict d)
        /\ dict_get d (lit "plan") = Some (VList items)).
Proof.
  unfold parse_and_validate. destruct (json_loads text) as [w | e]; cbn [bind try_except].
  - unfold has_plan_list, py_in, py_getitem, dict_has.
    destruct w as [| b | n | f | t | items | d]; cbn [bind try_except];
      try (unfold is_JSONDecodeError; cbn; discriminate).
    + destruct (contains t (lit "plan")); cbn [bind try_except].
      * unfold is_JSONDecodeError; cbn; discriminate.
      * intros H; inversion H. now left.
    + destruct (existsb _ items); cbn [bind try_except].
      * unfold is_JSONDecodeError; cbn; discriminate.
      * intros H; inversion H. now left.
    + destruct (dict_get d (lit "plan")) as [[| b | n | f | t | items | d']|] eqn:E;
        cbn [bind try_except isinstance_list]; intros H; inversion H;
        try (now left).
      right. right. now exists d, items.
  - destruct (is_JSONDecodeError e); [|discriminate].
    intros H; inversion H. right. left. now exists e.
Qed.

(** X1.  Whatever the goal, the model and the JSON decoder do,
    [generate_plan] raises nothing and returns a record that has an
    ["error"] message or a list under ["plan"].  A record without
    ["error"] is exactly the object decoded from the text extracted
    from the model's response, and that object has a list under
    ["plan"]. *)
Theorem generate_plan_result_shape :
  forall (json_loads : str -> outcome value) (type_error_text : type_error -> str)
         (generate_content : ai_call -> outcome str) (goal model_name : str),
    exists d : dict,
      fst (generate_plan json_loads type_error_text generate_content goal model_name)
      = Return (VDict d)
      /\ error_or_plan d
      /\ (dict_get d (lit "error") = None ->
          exists raw items,
            generate_content (mkCall model_name (build_prompt goal) the_config)
              = Return raw
            /\ json_loads (candidate raw) = Return (VDict d)
            /\ dict_get d (lit "plan") = Some (VList items)).
Proof.
  intros json_loads tet ai goal model_name.
  destruct goal as [|c goal].
  - eexists. split; [reflexivity|]. split.
    + left. eexists. reflexivity.
    + discriminate.
  - destruct (ai (mkCall model_name (build_prompt (c :: goal)) the_config))
      as [raw | e] eqn:Hai.
    + rewrite (generate_plan_answer json_loads tet ai c goal model_name raw Hai).
      destruct (parse_and_validate json_loads tet (candidate raw)) as [v | e] eqn:Hv.
      * destruct (validate_cases _ _ _ _ Hv)
          as [-> | [(e & ->) | (d & items & -> & Hd & Hp)]].
        -- eexists. split; [reflexivity|]. split; [|discriminate].
           left. eexists. reflexivity.
        -- eexists. split; [reflexivity|]. split; [|discriminate].
           left. eexists. reflexivity.
        -- exists d. split; [reflexivity|]. split.
           ++ right. now exists items.
           ++ intros _. now exists raw, items.
      * eexists. split; [reflexivity|]. split; [|discriminate].
        left. eexists. reflexivity.
    + rewrite (generate_plan_raise json_loads tet ai c goal model_name e Hai).
      eexists. split; [reflexivity|]. split; [|discriminate].
      left. eexists. reflexivity.
Qed.

(** X2.  The prompt built for a goal contains the goal, between double
    quotes, and the example of the required JSON shape. *)
Theorem prompt_shows_goal_and_shape :
  forall goal : str,
    contains (build_prompt goal) (q goal) = true
    /\ contains (build_prompt goal) goal = true
    /\ contains (build_prompt goal) json_skeleton = true.
Proof.
  intros goal.
  set (head := nl ++ lit "You are an expert project manager AI. Your task is to break down the user's goal into a structured action plan." ++ nl ++ lit "Goal: ").
  set (middle := nl ++ nl ++ lit "Return ONLY a valid JSON object with this exact structure:" ++ nl).
  set (tail := nl ++ lit "Rules:" ++ nl
               ++ lit "- task_id: integer starting from 1" ++ nl
               ++ lit "- task_name: concise string" ++ nl
               ++ lit "- description: detailed string" ++ nl
               ++ lit "- dependencies: array of task_id integers (empty array if none)" ++ nl
               ++ lit "- duration_days: integer" ++ nl
               ++ nl
               ++ lit "Provide a complete, logical breakdown of the goal into sequential tasks." ++ nl
               ++ lit "Return ONLY the JSON, no other text or markdown formatting." ++ nl).
  assert (E : build_prompt goal = head ++ q goal ++ middle ++ json_skeleton ++ tail).
  { unfold head, middle, tail, q. unfold build_prompt, unlines, q.
    cbn [map concat]. rewrite <- !app_assoc. reflexivity. }
  split; [|split]; apply contains_iff.
  - exists (length head), head, (middle ++ json_skeleton ++ tail). now split.
  - exists (length (head ++ dq)), (head ++ dq), (dq ++ middle ++ json_skeleton ++ tail).
    split; [|reflexivity]. rewrite E. unfold q. now rewrite <- !app_assoc.
  - exists (length (head ++ q goal ++ middle)), (head ++ q goal ++ middle), tail.
    split; [|reflexivity]. rewrite E. now rewrite <- !app_assoc.
Qed.

(* ------------------------------------------------------------------ *)
(** *** Trimming                                                       *)
(* ------------------------------------------------------------------ *)

Lemma lstrip_head (s : str) :
  lstrip s = [] \/ exists c t, lstrip s = c :: t /\ isspace c = false.
Proof.
  induction s as [|c s IH]; simpl; [now left|].
  destruct (isspace c) eqn:E; [exact IH|]. right. now exists c, s.
Qed.

Lemma lstrip_idempotent (s : str) : lstrip (lstrip s) = lstrip s.
Proof.
  destruct (lstrip_head s) as [-> | (c & t & -> & Hc)]; [reflexivity|].
  now apply lstrip_nonspace.
Qed.

Lemma rstrip_idempotent (s : str) : rstrip (rstrip s) = rstrip s.
Proof.
  unfold rstrip. now rewrite rev_involutive, lstrip_idempotent.
Qed.

Lemma rstrip_head (c : N) (t : str) :
  isspace c = false -> rstrip (c :: t) = c :: rstrip t.
Proof.
  intros H. exact (rstrip_app_nonspace [] t c H).
Qed.

Lemma lstrip_strip (s : str) : lstrip (strip s) = strip s.
Proof.
  unfold strip.
  destruct (lstrip_head s) as [-> | (c & t & -> & Hc)]; [reflexivity|].
  rewrite rstrip_head by exact Hc. now apply lstrip_nonspace.
Qed.

Lemma strip_idempotent (s : str) : strip (strip s) = strip s.
Proof.
  unfold strip at 1. rewrite lstrip_strip.
  unfold strip. apply rstrip_idempotent.
Qed.

Lemma lstrip_blank (w s : str) : blank w = true -> lstrip (w ++ s) = lstrip s.
Proof.
  unfold blank. induction w as [|c w IH]; simpl; [reflexivity|].
  intros H. apply andb_true_iff in H as [Hc Hw]. rewrite Hc. now apply IH.
Qed.

Lemma blank_rev (w : str) : blank (rev w) = blank w.
Proof.
  unfold blank. induction w as [|c w IH]; [reflexivity|].
  simpl. rewrite forallb_app, IH. simpl. rewrite andb_true_r. apply andb_comm.
Qed.

Lemma rstrip_blank (s w : str) : blank w = true -> rstrip (s ++ w) = rstrip s.
Proof.
  intros H. unfold rstrip. rewrite rev_app_distr. f_equal.
  apply lstrip_blank. now rewrite blank_rev.
Qed.

Lemma lstrip_all_blank (s : str) : blank s = true -> lstrip s = [].
Proof.
  intros H. rewrite <- (app_nil_r s). now rewrite lstrip_blank.
Qed.

Lemma lstrip_app_not_blank (s t : str) :
  blank s = false -> lstrip (s ++ t) = lstrip s ++ t.
Proof.
  unfold blank. induction s as [|c s IH]; simpl; [discriminate|].
  destruct (isspace c); simpl; [exact IH | reflexivity].
Qed.

(** Trimming forgets white space around the text. *)
Lemma strip_padded (w1 s w2 : str) :
  blank w1 = true -> blank w2 = true -> strip (w1 ++ s ++ w2) = strip s.
Proof.
  intros H1 H2. unfold strip. rewrite lstrip_blank by exact H1.
  destruct (blank s) eqn:Hs.
  - rewrite lstrip_all_blank.
    + now rewrite lstrip_all_blank.
    + unfold blank in *. rewrite forallb_app. now rewrite Hs, H2.
  - rewrite lstrip_app_not_blank by exact Hs. now apply rstrip_blank.
Qed.

Lemma lstrip_length (s : str) : (length (lstrip s) <= length s)%nat.
Proof.
  induction s as [|c s IH]; simpl; [lia|]. destruct (isspace c); simpl; lia.
Qed.

Lemma strip_length (s : str) : (length (strip s) <= length s)%nat.
Proof.
  unfold strip, rstrip. rewrite length_rev.
  etransitivity; [apply lstrip_length|]. rewrite length_rev. apply lstrip_length.
Qed.

Lemma slice_length (s : str) (a b : Z) : (length (slice s a b) <= length s)%nat.
Proof.
  unfold slice. cbv zeta. rewrite length_firstn, length_skipn. lia.
Qed.

(* ------------------------------------------------------------------ *)
(** *** Lines                                                          *)
(* ------------------------------------------------------------------ *)

Lemma split_cons (s : str) (sep : N) : exists l ls, split s sep = l :: ls.
Proof.
  induction s as [|c s IH]; simpl; [now exists [], []|].
  destruct (N.eqb c sep); [now exists [], (split s sep)|].
  destruct IH as (l & ls & ->). now exists (c :: l), ls.
Qed.

Lemma join_cons (sep l : str) (ls : list str) (c : N) :
  join sep ((c :: l) :: ls) = c :: join sep (l :: ls).
Proof. destruct ls; reflexivity. Qed.

(** Joining the lines of a text gives the text back. *)
Lemma join_split (s : str) (sep : N) : join [sep] (split s sep) = s.
Proof.
  induction s as [|c s IH]; [reflexivity|]. simpl split.
  destruct (N.eqb_spec c sep) as [-> | Hne].
  - destruct (split_cons s sep) as (l & ls & E). rewrite E in *.
    change (join [sep] ([] :: l :: ls)) with ([] ++ [sep] ++ join [sep] (l :: ls)).
    now rewrite IH.
  - destruct (split_cons s sep) as (l & ls & E). rewrite E in *.
    now rewrite join_cons, IH.
Qed.

Lemma with_breaks_split (s : str) (sep : N) :
  with_breaks (split s sep) = S (length s).
Proof.
  induction s as [|c s IH]; [reflexivity|]. simpl split.
  destruct (N.eqb c sep).
  - simpl. now rewrite IH.
  - destruct (split_cons s sep) as (l & ls & E). rewrite E in *.
    simpl in *. lia.
Qed.

Lemma join_length (sep : str) (lines : list str) :
  length sep = 1%nat -> (length (join sep lines) <= pred (with_breaks lines))%nat.
Proof.
  intros Hsep. induction lines as [|l ls IH]; [simpl; lia|].
  destruct ls as [|l' ls].
  - simpl. lia.
  - change (join sep (l :: l' :: ls)) with (l ++ sep ++ join sep (l' :: ls)).
    rewrite !length_app, Hsep. simpl in *. lia.
Qed.

Lemma lines_inside_with_breaks (lines : list str) (flag : bool) :
  (with_breaks (lines_inside lines flag) <= with_breaks lines)%nat.
Proof.
  revert flag; induction lines as [|l ls IH]; intros flag; [simpl; lia|].
  cbn [lines_inside with_breaks fold_right].
  destruct (is_fence_line l).
  - specialize (IH (negb flag)). unfold with_breaks in IH. lia.
  - destruct flag.
    + specialize (IH true). cbn [with_breaks fold_right]. unfold with_breaks in IH. lia.
    + specialize (IH false). unfold with_breaks in IH. lia.
Qed.

Lemma extract_json_length (text : str) :
  (length (extract_json text) <= length text)%nat.
Proof.
  unfold extract_json. destruct (contains text json_fence).
  - cbv zeta. etransitivity; [apply strip_length | apply slice_length].
  - destruct (startswith text fence); [|lia].
    cbv zeta. etransitivity; [apply strip_length|].
    etransitivity; [apply (join_length nl); reflexivity|].
    rewrite scan_lines_acc. simpl app.
    pose proof (lines_inside_with_breaks (split text LF) false) as H.
    rewrite with_breaks_split in H. lia.
Qed.

Lemma extract_json_trimmed (text : str) :
  strip text = text -> strip (extract_json text) = extract_json text.
Proof.
  intros H. unfold extract_json. destruct (contains text json_fence).
  - apply strip_idempotent.
  - destruct (startswith text fence); [apply strip_idempotent | exact H].
Qed.

(* ================================================================== *)
(** ** Further properties of the extraction                            *)
(* ================================================================== *)

(** X3.  The text handed to the JSON decoder (and echoed under ["raw"]
    in the two failures that carry it) has no white space at either
    end and is never longer than the model's response. *)
Theorem candidate_trimmed_and_bounded :
  forall raw : str,
    strip (candidate raw) = candidate raw
    /\ (length (candidate raw) <= length raw)%nat.
Proof.
  intros raw. unfold candidate. split.
  - apply extract_json_trimmed, strip_idempotent.
  - etransitivity; [apply extract_json_length | apply strip_length].
Qed.

(** X4.  White space before and after the model's response changes
    nothing: the extracted text is the same, and so is what
    [generate_plan] returns. *)
Theorem surrounding_white_space_is_ignored :
  forall w1 w2 raw : str,
    blank w1 = true -> blank w2 = true ->
    candidate (w1 ++ raw ++ w2) = candidate raw
    /\ forall json_loads type_error_text padded plain c goal model_name,
         padded (mkCall model_name (build_prompt (c :: goal)) the_config)
           = Return (w1 ++ raw ++ w2) ->
         plain (mkCall model_name (build_prompt (c :: goal)) the_config)
           = Return raw ->
         fst (generate_plan json_loads type_error_text padded (c :: goal) model_name)
         = fst (generate_plan json_loads type_error_text plain (c :: goal) model_name).
Proof.
  intros w1 w2 raw H1 H2.
  assert (Hc : candidate (w1 ++ raw ++ w2) = candidate raw).
  { unfold candidate. now rewrite strip_padded. }
  split; [exact Hc|].
  intros json_loads tet padded plain c goal model_name Hp Hq.
  rewrite (generate_plan_answer json_loads tet padded c goal model_name _ Hp).
  rewrite (generate_plan_answer json_loads tet plain c goal model_name _ Hq).
  now rewrite Hc.
Qed.

Lemma surrounding_white_space_witness :
  blank (lit " " ++ nl) = true /\ blank nl = true
  /\ candidate ((lit " " ++ nl) ++ raw_json_fenced ++ nl) = candidate raw_json_fenced.
Proof.
  split; [reflexivity|]. split; [reflexivity|].
  exact (proj1 (surrounding_white_space_is_ignored (lit " " ++ nl) nl raw_json_fenced
                  eq_refl eq_refl)).
Defined.

(* ------------------------------------------------------------------ *)
(** *** Markers in texts without backticks                             *)
(* ------------------------------------------------------------------ *)

Lemma find_first_skip (pre s sub' : str) (c : N) :
  ~ In c pre ->
  find_first (pre ++ s) (c :: sub')
  = option_map (Nat.add (length pre)) (find_first s (c :: sub')).
Proof.
  induction pre as [|x pre IH]; intros H.
  - simpl. now destruct (find_first s (c :: sub')).
  - assert (Hx : N.eqb c x = false).
    { apply N.eqb_neq. intros ->. apply H. now left. }
    cbn [app find_first startswith length]. rewrite Hx. cbn [andb].
    rewrite IH by (intros Hin; apply H; now right).
    now destruct (find_first s (c :: sub')).
Qed.

Lemma first_at_after (pre sub' post : str) (c : N) :
  ~ In c pre ->
  first_at (pre ++ (c :: sub') ++ post) (c :: sub') (length pre).
Proof.
  intros H. apply find_first_spec. rewrite find_first_skip by exact H.
  replace (find_first ((c :: sub') ++ post) (c :: sub')) with (Some 0%nat).
  - simpl. f_equal. lia.
  - symmetry. apply find_first_0. apply startswith_app.
Qed.

Lemma contains_without_head (s sub' : str) (c : N) :
  ~ In c s -> contains s (c :: sub') = false.
Proof.
  intros H. unfold contains. rewrite <- (app_nil_r s).
  rewrite find_first_skip by exact H. reflexivity.
Qed.

Lemma startswith_without_head (s sub' : str) (c : N) :
  ~ In c s -> startswith s (c :: sub') = false.
Proof.
  intros H. destruct (startswith s (c :: sub')) eqn:E; [|reflexivity].
  apply startswith_iff in E as [t ->]. exfalso. apply H. now left.
Qed.

Lemma lstrip_incl (s : str) (x : N) : In x (lstrip s) -> In x s.
Proof.
  induction s as [|c s IH]; simpl; [tauto|].
  destruct (isspace c); [right; now apply IH | tauto].
Qed.

Lemma strip_incl (s : str) (x : N) : In x (strip s) -> In x s.
Proof.
  unfold strip, rstrip. intros H. apply in_rev in H.
  apply lstrip_incl in H. apply in_rev in H. now apply lstrip_incl.
Qed.

(** A text without backticks is decoded as it is, trimmed. *)
Lemma candidate_without_backtick (body : str) :
  ~ In BACKTICK body -> candidate body = strip body.
Proof.
  intros H. unfold candidate.
  assert (Hs : ~ In BACKTICK (strip body)) by (intros Hin; apply H; now apply strip_incl).
  apply extract_json_plain.
  - now apply contains_without_head.
  - now apply startswith_without_head.
Qed.

(** Trimming a text that holds a [```json] block. *)
Lemma strip_around_block (pre middle post : str) :
  strip (pre ++ json_fence ++ middle ++ fence ++ post)
  = lstrip pre ++ json_fence ++ middle ++ fence ++ rstrip post.
Proof.
  unfold strip.
  change (pre ++ json_fence ++ middle ++ fence ++ post)
    with (pre ++ BACKTICK :: (lit "``json" ++ middle ++ fence ++ post)).
  rewrite lstrip_app_nonspace by reflexivity.
  change (lstrip pre ++ BACKTICK :: (lit "``json" ++ middle ++ fence ++ post))
    with (lstrip pre ++ json_fence ++ middle ++ (lit "``" ++ [BACKTICK]) ++ post).
  replace (lstrip pre ++ json_fence ++ middle ++ (lit "``" ++ [BACKTICK]) ++ post)
    with (((lstrip pre ++ json_fence ++ middle ++ lit "``") ++ [BACKTICK]) ++ post)
    by (now rewrite <- !app_assoc).
  rewrite rstrip_app_nonspace by reflexivity.
  now rewrite <- !app_assoc.
Qed.

Lemma extract_json_block (pre body post : str) :
  ~ In BACKTICK pre -> ~ In BACKTICK body ->
  extract_json (pre ++ json_fence ++ body ++ fence ++ post) = strip body.
Proof.
  intros Hpre Hbody.
  assert (Hi : first_at (pre ++ json_fence ++ body ++ fence ++ post) json_fence
                 (length pre)).
  { exact (first_at_after pre (lit "``json") (body ++ fence ++ post) BACKTICK Hpre). }
  assert (Hskip : skipn (length pre + 7) (pre ++ json_fence ++ body ++ fence ++ post)
                  = body ++ fence ++ post).
  { rewrite app_assoc.
    replace (length pre + 7)%nat with (length (pre ++ json_fence))
      by (rewrite length_app; reflexivity).
    now rewrite skipn_app, skipn_all, Nat.sub_diag. }
  assert (Hj : first_at (skipn (length pre + 7)
                           (pre ++ json_fence ++ body ++ fence ++ post))
                 fence (length body)).
  { rewrite Hskip. exact (first_at_after body (lit "``") post BACKTICK Hbody). }
  rewrite (extract_json_closed _ _ _ Hi Hj), Hskip.
  now rewrite firstn_app, firstn_all, Nat.sub_diag, app_nil_r.
Qed.

(** X5.  A response that holds a [```json] block, whatever prose stands
    before it and whatever follows its closing fence, is handled like
    the bare content of the block, as long as neither the prose before
    nor the content has a backtick: the text decoded is the trimmed
    content, and [generate_plan] returns what it returns for the
    content alone. *)
Theorem json_block_is_unwrapped :
  forall pre body post : str,
    ~ In BACKTICK pre -> ~ In BACKTICK body ->
    candidate (pre ++ json_fence ++ body ++ fence ++ post) = strip body
    /\ candidate (pre ++ json_fence ++ body ++ fence ++ post) = candidate body
    /\ forall json_loads type_error_text fenced bare c goal model_name,
         fenced (mkCall model_name (build_prompt (c :: goal)) the_config)
           = Return (pre ++ json_fence ++ body ++ fence ++ post) ->
         bare (mkCall model_name (build_prompt (c :: goal)) the_config)
           = Return body ->
         fst (generate_plan json_loads type_error_text fenced (c :: goal) model_name)
         = fst (generate_plan json_loads type_error_text bare (c :: goal) model_name).
Proof.
  intros pre body post Hpre Hbody.
  assert (Hc : candidate (pre ++ json_fence ++ body ++ fence ++ post) = strip body).
  { unfold candidate. rewrite strip_around_block. apply extract_json_block.
    - intros Hin. apply Hpre. now apply lstrip_incl.
    - exact Hbody. }
  split; [exact Hc|]. split.
  - now rewrite Hc, candidate_without_backtick.
  - intros json_loads tet fenced bare c goal model_name Hf Hb.
    rewrite (generate_plan_answer json_loads tet fenced c goal model_name _ Hf).
    rewrite (generate_plan_answer json_loads tet bare c goal model_name _ Hb).
    now rewrite Hc, candidate_without_backtick.
Qed.

Lemma json_block_is_unwrapped_witness :
  ~ In BACKTICK (lit "Here is the plan:" ++ nl)
  /\ ~ In BACKTICK (nl ++ plan_empty_json ++ nl)
  /\ candidate ((lit "Here is the plan:" ++ nl) ++ json_fence
                  ++ (nl ++ plan_empty_json ++ nl) ++ fence ++ lit " Good luck!")
     = plan_empty_json.
Proof.
  assert (H1 : ~ In BACKTICK (lit "Here is the plan:" ++ nl)).
  { intros H. cbv in H. repeat (destruct H as [H | H]; [discriminate|]). exact H. }
  assert (H2 : ~ In BACKTICK (nl ++ plan_empty_json ++ nl)).
  { intros H. cbv in H. repeat (destruct H as [H | H]; [discriminate|]). exact H. }
  split; [exact H1|]. split; [exact H2|].
  exact (proj1 (json_block_is_unwrapped (lit "Here is the plan:" ++ nl)
                  (nl ++ plan_empty_json ++ nl) (lit " Good luck!") H1 H2)).
Defined.

(* ------------------------------------------------------------------ *)
(** *** Lines of a generic block                                       *)
(* ------------------------------------------------------------------ *)

Lemma split_app_sep (x y : str) (sep : N) :
  split (x ++ sep :: y) sep = split x sep ++ split y sep.
Proof.
  induction x as [|c x IH]; simpl.
  - now rewrite N.eqb_refl.
  - destruct (N.eqb c sep); [now rewrite IH|].
    rewrite IH. destruct (split_cons x sep) as (l & ls & ->). reflexivity.
Qed.

Lemma split_app_no_sep (p s : str) (sep : N) :
  ~ In sep p ->
  split (p ++ s) sep
  = (p ++ hd [] (split s sep)) :: tl (split s sep).
Proof.
  induction p as [|c p IH]; intros H.
  - simpl. now destruct (split_cons s sep) as (l & ls & ->).
  - assert (Hc : N.eqb c sep = false).
    { apply N.eqb_neq. intros ->. apply H. now left. }
    cbn [app split]. rewrite Hc, IH by (intros Hin; apply H; now right).
    reflexivity.
Qed.

Lemma split_no_sep (p : str) (sep : N) : ~ In sep p -> split p sep = [p].
Proof.
  intros H. rewrite <- (app_nil_r p) at 1. rewrite split_app_no_sep by exact H.
  simpl. now rewrite app_nil_r.
Qed.

Lemma split_incl (s l : str) (sep x : N) :
  In l (split s sep) -> In x l -> In x s.
Proof.
  revert l; induction s as [|c s IH]; intros l Hl Hx.
  - simpl in Hl. destruct Hl as [<- | []]. exact Hx.
  - simpl in Hl. destruct (N.eqb c sep).
    + destruct Hl as [<- | Hl]; [destruct Hx|]. right. now apply (IH l).
    + destruct (split_cons s sep) as (l0 & ls & E). rewrite E in *.
      destruct Hl as [<- | Hl].
      * destruct Hx as [<- | Hx]; [now left|]. right. apply (IH l0); [now left | exact Hx].
      * right. apply (IH l); [now right | exact Hx].
Qed.

Lemma fence_line_has_backtick (l : str) : is_fence_line l = true -> In BACKTICK l.
Proof.
  unfold is_fence_line. intros H. apply startswith_iff in H as [t ->]. now left.
Qed.

Lemma lines_without_backtick (s : str) :
  ~ In BACKTICK s -> Forall (fun l => is_fence_line l = false) (split s LF).
Proof.
  intros H. apply Forall_forall. intros l Hl.
  destruct (is_fence_line l) eqn:E; [|reflexivity].
  exfalso. apply H. apply (split_incl s l LF BACKTICK Hl).
  now apply fence_line_has_backtick.
Qed.

Lemma lines_inside_open (lines rest : list str) :
  Forall (fun l => is_fence_line l = false) lines ->
  lines_inside (lines ++ rest) true = lines ++ lines_inside rest true.
Proof.
  induction 1 as [|l ls Hl _ IH]; [reflexivity|].
  cbn [app lines_inside]. now rewrite Hl, IH.
Qed.

Lemma lines_inside_closed (lines : list str) :
  Forall (fun l => is_fence_line l = false) lines ->
  lines_inside lines false = [].
Proof.
  induction 1 as [|l ls Hl _ IH]; [reflexivity|].
  cbn [lines_inside]. now rewrite Hl.
Qed.

Lemma rstrip_incl (s : str) (x : N) : In x (rstrip s) -> In x s.
Proof.
  unfold rstrip. intros H. apply in_rev in H. apply lstrip_incl in H.
  now apply in_rev.
Qed.

(** Trimming a text that is a generic block and a trailer. *)
Lemma strip_generic_block (inner trailer : str) :
  strip (fence ++ inner ++ fence ++ trailer)
  = fence ++ inner ++ fence ++ rstrip trailer.
Proof.
  unfold strip.
  change (fence ++ inner ++ fence ++ trailer)
    with (BACKTICK :: (lit "``" ++ inner ++ fence ++ trailer)).
  rewrite lstrip_nonspace by reflexivity.
  change (BACKTICK :: (lit "``" ++ inner ++ fence ++ trailer))
    with (fence ++ inner ++ (lit "``" ++ [BACKTICK]) ++ trailer).
  replace (fence ++ inner ++ (lit "``" ++ [BACKTICK]) ++ trailer)
    with (((fence ++ inner ++ lit "``") ++ [BACKTICK]) ++ trailer)
    by (now rewrite <- !app_assoc).
  rewrite rstrip_app_nonspace by reflexivity.
  now rewrite <- !app_assoc.
Qed.

Lemma scan_generic_block (tag body trailer : str) :
  ~ In LF tag -> ~ In BACKTICK body -> ~ In BACKTICK trailer ->
  scan_lines (split (fence ++ tag ++ nl ++ body ++ nl ++ fence ++ trailer) LF) false []
  = split body LF.
Proof.
  intros Htag Hbody Htrailer.
  rewrite scan_lines_acc. cbn [app].
  replace (fence ++ tag ++ nl ++ body ++ nl ++ fence ++ trailer)
    with ((fence ++ tag) ++ LF :: (body ++ LF :: (fence ++ trailer)))
    by (unfold nl; now rewrite <- !app_assoc).
  rewrite !split_app_sep.
  rewrite (split_no_sep (fence ++ tag)).
  2:{ intros Hin. apply in_app_or in Hin as [Hin | Hin]; [|now apply Htag].
      cbv in Hin. repeat (destruct Hin as [Hin | Hin]; [discriminate|]). exact Hin. }
  rewrite (split_app_no_sep fence trailer).
  2:{ intros Hin. cbv in Hin.
      repeat (destruct Hin as [Hin | Hin]; [discriminate|]). exact Hin. }
  cbn [app lines_inside].
  replace (is_fence_line (fence ++ tag)) with true
    by (symmetry; apply startswith_app).
  cbn [negb].
  rewrite lines_inside_open by (now apply lines_without_backtick).
  cbn [lines_inside].
  replace (is_fence_line (fence ++ hd [] (split trailer LF))) with true
    by (symmetry; apply startswith_app).
  cbn [negb].
  rewrite lines_inside_closed; [now rewrite app_nil_r|].
  pose proof (lines_without_backtick trailer Htrailer) as H.
  destruct (split trailer LF); [constructor | now inversion H].
Qed.

(** X6.  A response that starts with a fence line, with any language
    tag other than one that makes it a [```json] response, is handled
    like the bare content of the block: the lines between the opening
    fence line and the closing fence are kept, whatever follows the
    closing fence is dropped, and [generate_plan] returns what it
    returns for the content alone (the content and the trailer having
    no backtick). *)
Theorem generic_block_is_unwrapped :
  forall tag body trailer : str,
    let raw := fence ++ tag ++ nl ++ body ++ nl ++ fence ++ trailer in
    ~ In LF tag -> ~ In BACKTICK body -> ~ In BACKTICK trailer ->
    contains raw json_fence = false ->
    candidate raw = strip body
    /\ candidate raw = candidate body
    /\ forall json_loads type_error_text fenced bare c goal model_name,
         fenced (mkCall model_name (build_prompt (c :: goal)) the_config) = Return raw ->
         bare (mkCall model_name (build_prompt (c :: goal)) the_config) = Return body ->
         fst (generate_plan json_loads type_error_text fenced (c :: goal) model_name)
         = fst (generate_plan json_loads type_error_text bare (c :: goal) model_name).
Proof.
  intros tag body trailer raw Htag Hbody Htrailer Hno.
  assert (Hc : candidate raw = strip body).
  { unfold candidate, extract_json.
    rewrite contains_strip_json_fence, Hno.
    assert (Hs : strip raw = fence ++ tag ++ nl ++ body ++ nl ++ fence ++ rstrip trailer).
    { unfold raw.
      replace (fence ++ tag ++ nl ++ body ++ nl ++ fence ++ trailer)
        with (fence ++ (tag ++ nl ++ body ++ nl) ++ fence ++ trailer)
        by (now rewrite <- !app_assoc).
      rewrite strip_generic_block. now rewrite <- !app_assoc. }
    rewrite Hs. rewrite startswith_app.
    rewrite scan_generic_block; try assumption.
    - cbv zeta. change (join nl (split body LF)) with (join [LF] (split body LF)).
      now rewrite join_split.
    - intros Hin. apply Htrailer. now apply rstrip_incl. }
  split; [exact Hc|]. split.
  - now rewrite Hc, candidate_without_backtick.
  - intros json_loads tet fenced bare c goal model_name Hf Hb.
    rewrite (generate_plan_answer json_loads tet fenced c goal model_name _ Hf).
    rewrite (generate_plan_answer json_loads tet bare c goal model_name _ Hb).
    now rewrite Hc, candidate_without_backtick.
Qed.

Lemma generic_block_is_unwrapped_witness :
  ~ In LF (lit "python") /\ ~ In BACKTICK plan_one_json
  /\ ~ In BACKTICK (nl ++ lit "Done.")
  /\ contains (fence ++ lit "python" ++ nl ++ plan_one_json ++ nl ++ fence
                 ++ nl ++ lit "Done.") json_fence = false
  /\ candidate (fence ++ lit "python" ++ nl ++ plan_one_json ++ nl ++ fence
                  ++ nl ++ lit "Done.") = plan_one_json.
Proof.
  assert (H1 : ~ In LF (lit "python")).
  { intros H. cbv in H. repeat (destruct H as [H | H]; [discriminate|]). exact H. }
  assert (H2 : ~ In BACKTICK plan_one_json).
  { intros H. cbv in H. repeat (destruct H as [H | H]; [discriminate|]). exact H. }
  assert (H3 : ~ In BACKTICK (nl ++ lit "Done.")).
  { intros H. cbv in H. repeat (destruct H as [H | H]; [discriminate|]). exact H. }
  split; [exact H1|]. split; [exact H2|]. split; [exact H3|]. split; [reflexivity|].
  exact (proj1 (generic_block_is_unwrapped (lit "python") plan_one_json
                  (nl ++ lit "Done.") H1 H2 H3 eq_refl)).
Defined.

(* ------------------------------------------------------------------ *)
(** *** Sorting tasks of distinct ids                                  *)
(* ------------------------------------------------------------------ *)

Section SortingDistinct.

Variable A : Type.
Variable key : A -> Z.

Lemma key_injective_on (l : list A) (x y : A) :
  NoDup (map key l) -> In x l -> In y l -> key x = key y -> x = y.
Proof.
  induction l as [|a l IH]; intros Hnd Hx Hy E; [destruct Hx|].
  simpl in Hnd. inversion Hnd as [|? ? Hnotin Hnd']; subst.
  destruct Hx as [-> | Hx], Hy as [-> | Hy]; try reflexivity.
  - exfalso. apply Hnotin. rewrite E. now apply in_map.
  - exfalso. apply Hnotin. rewrite <- E. now apply in_map.
  - now apply IH.
Qed.

(** Two orderings of the same elements by distinct keys are the same. *)
Lemma ordered_unique (l1 l2 : list A) :
  Permutation l1 l2 ->
  StronglySorted (key_le key) l1 -> StronglySorted (key_le key) l2 ->
  NoDup (map key l1) -> l1 = l2.
Proof.
  revert l2; induction l1 as [|a l1 IH]; intros l2 Hperm Hs1 Hs2 Hnd.
  - now apply Permutation_nil in Hperm.
  - destruct l2 as [|b l2].
    { apply Permutation_sym, Permutation_nil in Hperm. discriminate. }
    inversion Hs1 as [|? ? Hs1' Hall1]; subst.
    inversion Hs2 as [|? ? Hs2' Hall2]; subst.
    assert (Ha : In a (b :: l2)) by (eapply Permutation_in; [exact Hperm | now left]).
    assert (Hb : In b (a :: l1))
      by (eapply Permutation_in; [apply Permutation_sym; exact Hperm | now left]).
    assert (Hab : (key a <= key b)%Z).
    { destruct Hb as [<- | Hb]; [lia|].
      rewrite Forall_forall in Hall1. exact (Hall1 b Hb). }
    assert (Hba : (key b <= key a)%Z).
    { destruct Ha as [<- | Ha]; [lia|].
      rewrite Forall_forall in Hall2. exact (Hall2 a Ha). }
    assert (E : a = b).
    { apply (key_injective_on (a :: l1)); [exact Hnd | now left | exact Hb | lia]. }
    subst b. f_equal. apply IH.
    + now apply Permutation_cons_inv in Hperm.
    + exact Hs1'.
    + exact Hs2'.
    + simpl in Hnd. now inversion Hnd.
Qed.

Lemma sorted_order_free (l1 l2 : list A) :
  Permutation l1 l2 -> NoDup (map key l1) -> sorted key l1 = sorted key l2.
Proof.
  intros Hperm Hnd. apply ordered_unique.
  - rewrite <- (sorted_perm A key l1), <- (sorted_perm A key l2). exact Hperm.
  - apply sorted_ordered.
  - apply sorted_ordered.
  - eapply Permutation_NoDup; [|exact Hnd].
    apply Permutation_map. apply sorted_perm.
Qed.

End SortingDistinct.

(** X7.  When no two task records have the same id (a missing id
    counting as 0), the order in which the plan lists them has no
    effect on what [display_plan] shows. *)
Theorem display_plan_ignores_listing_order :
  forall (py_repr : value -> str) (float_bool : str -> bool)
         (list_sort : list (value * value) -> outcome (list value))
         (tasks tasks' : list value),
    Permutation tasks tasks' ->
    forallb task_record tasks = true ->
    NoDup (map id_of tasks) ->
    display_plan py_repr float_bool list_sort (VList tasks)
    = display_plan py_repr float_bool list_sort (VList tasks').
Proof.
  intros py_repr float_bool list_sort tasks tasks' Hperm Hrec Hnd.
  destruct tasks as [|t tasks].
  - apply Permutation_nil in Hperm. now subst.
  - destruct tasks' as [|t' tasks'].
    + apply Permutation_sym, Permutation_nil in Hperm. discriminate.
    + rewrite (display_plan_records py_repr float_bool list_sort (t :: tasks) Hrec)
        by discriminate.
      rewrite (display_plan_records py_repr float_bool list_sort (t' :: tasks')
                 (records_permuted _ _ Hperm Hrec)) by discriminate.
      f_equal. now apply sorted_order_free.
Qed.

Lemma display_plan_ignores_listing_order_witness :
  Permutation [task_with_id 3; task_with_id 1; task_with_id 2]
              [task_with_id 1; task_with_id 2; task_with_id 3]
  /\ forallb task_record [task_with_id 3; task_with_id 1; task_with_id 2] = true
  /\ NoDup (map id_of [task_with_id 3; task_with_id 1; task_with_id 2])
  /\ forall py_repr float_bool list_sort,
       display_plan py_repr float_bool list_sort
         (VList [task_with_id 3; task_with_id 1; task_with_id 2])
       = display_plan py_repr float_bool list_sort
           (VList [task_with_id 1; task_with_id 2; task_with_id 3]).
Proof.
  assert (Hp : Permutation [task_with_id 3; task_with_id 1; task_with_id 2]
                           [task_with_id 1; task_with_id 2; task_with_id 3]).
  { eapply perm_trans; [apply perm_swap|]. apply perm_skip. apply perm_swap. }
  assert (Hn : NoDup (map id_of [task_with_id 3; task_with_id 1; task_with_id 2])).
  { simpl. repeat constructor; simpl; intros H;
      repeat (destruct H as [H | H]; [discriminate|]); exact H. }
  split; [exact Hp|]. split; [reflexivity|]. split; [exact Hn|].
  intros py_repr float_bool list_sort.
  exact (display_plan_ignores_listing_order py_repr float_bool list_sort _ _ Hp eq_refl Hn).
Defined.

(* ------------------------------------------------------------------ *)
(** *** An unclosed generic block                                      *)
(* ------------------------------------------------------------------ *)

(** A text that is not blank ends in a character that is no white
    space, followed by white space only. *)
Lemma last_nonspace (s : str) :
  blank s = false ->
  exists b c w, s = b ++ c :: w /\ isspace c = false /\ blank w = true.
Proof.
  unfold blank. induction s as [|x s IH]; [discriminate|].
  simpl. intros H. destruct (forallb isspace s) eqn:Hs.
  - rewrite andb_true_r in H. now exists [], x, s.
  - destruct (IH eq_refl) as (b & c & w & -> & Hc & Hw).
    now exists (x :: b), c, w.
Qed.

Lemma rstrip_all_blank (w : str) : blank w = true -> rstrip w = [].
Proof.
  intros H. unfold rstrip. rewrite lstrip_all_blank; [reflexivity|].
  now rewrite blank_rev.
Qed.

(** X8.  A generic block needs no closing fence: a response made of a
    fence line (with any tag that does not make it a [```json]
    response) and a content without backticks that is not blank is
    handled like the content alone.  (With [```json] the last character
    of such a response is lost: C8.) *)
Theorem unclosed_generic_block_is_unwrapped :
  forall tag body : str,
    let raw := fence ++ tag ++ nl ++ body in
    ~ In LF tag -> ~ In BACKTICK body -> blank body = false ->
    contains raw json_fence = false ->
    candidate raw = strip body
    /\ forall json_loads type_error_text fenced bare c goal model_name,
         fenced (mkCall model_name (build_prompt (c :: goal)) the_config) = Return raw ->
         bare (mkCall model_name (build_prompt (c :: goal)) the_config) = Return body ->
         fst (generate_plan json_loads type_error_text fenced (c :: goal) model_name)
         = fst (generate_plan json_loads type_error_text bare (c :: goal) model_name).
Proof.
  intros tag body raw Htag Hbody Hblank Hno.
  destruct (last_nonspace body Hblank) as (b & x & w & E & Hx & Hw).
  assert (Hs : strip raw = (fence ++ tag) ++ LF :: (b ++ [x])).
  { unfold raw, strip. rewrite E.
    change (fence ++ tag ++ nl ++ b ++ x :: w)
      with (BACKTICK :: (lit "``" ++ tag ++ nl ++ b ++ x :: w)).
    rewrite lstrip_nonspace by reflexivity.
    replace (BACKTICK :: (lit "``" ++ tag ++ nl ++ b ++ x :: w))
      with (((fence ++ tag ++ nl ++ b) ++ [x]) ++ w)
      by (unfold fence; simpl; now rewrite <- !app_assoc).
    rewrite rstrip_app_nonspace by exact Hx.
    rewrite rstrip_all_blank by exact Hw.
    rewrite app_nil_r. unfold nl. now rewrite <- !app_assoc. }
  assert (Hbx : ~ In BACKTICK (b ++ [x])).
  { intros Hin. apply Hbody. rewrite E.
    apply in_app_or in Hin as [Hin | [<- | []]]; apply in_or_app;
      [now left | right; now left]. }
  assert (Hc : candidate raw = strip body).
  { unfold candidate, extract_json.
    rewrite contains_strip_json_fence, Hno, Hs.
    replace (startswith ((fence ++ tag) ++ LF :: (b ++ [x])) fence) with true
      by (symmetry; rewrite <- app_assoc; apply startswith_app).
    cbv zeta. rewrite scan_lines_acc, split_app_sep. cbn [app].
    rewrite (split_no_sep (fence ++ tag)).
    2:{ intros Hin. apply in_app_or in Hin as [Hin | Hin]; [|now apply Htag].
        cbv in Hin. repeat (destruct Hin as [Hin | Hin]; [discriminate|]). exact Hin. }
    cbn [app lines_inside].
    replace (is_fence_line (fence ++ tag)) with true
      by (symmetry; apply startswith_app).
    cbn [negb].
    rewrite <- (app_nil_r (split (b ++ [x]) LF)).
    rewrite lines_inside_open by (now apply lines_without_backtick).
    cbn [lines_inside]. rewrite app_nil_r.
    change (join nl (split (b ++ [x]) LF)) with (join [LF] (split (b ++ [x]) LF)).
    rewrite join_split, E.
    replace (b ++ x :: w) with ([] ++ (b ++ [x]) ++ w)
      by (simpl; now rewrite <- app_assoc).
    now rewrite strip_padded. }
  split; [exact Hc|].
  intros json_loads tet fenced bare c goal model_name Hf Hb.
  rewrite (generate_plan_answer json_loads tet fenced c goal model_name _ Hf).
  rewrite (generate_plan_answer json_loads tet bare c goal model_name _ Hb).
  now rewrite Hc, candidate_without_backtick.
Qed.

Lemma unclosed_generic_block_witness :
  ~ In LF (lit "") /\ ~ In BACKTICK (plan_one_json ++ nl)
  /\ blank (plan_one_json ++ nl) = false
  /\ contains (fence ++ lit "" ++ nl ++ plan_one_json ++ nl) json_fence = false
  /\ candidate (fence ++ lit "" ++ nl ++ plan_one_json ++ nl) = plan_one_json.
Proof.
  assert (H1 : ~ In LF (lit "")) by (intros []).
  assert (H2 : ~ In BACKTICK (plan_one_json ++ nl)).
  { intros H. cbv in H. repeat (destruct H as [H | H]; [discriminate|]). exact H. }
  split; [exact H1|]. split; [exact H2|]. split; [reflexivity|]. split; [reflexivity|].
  exact (proj1 (unclosed_generic_block_is_unwrapped (lit "") (plan_one_json ++ nl)
                  H1 H2 eq_refl eq_refl)).
Defined.

(* ================================================================== *)
(** ** Further properties of the history view and the start-up         *)
(* ================================================================== *)

Lemma slice_prefix (s : str) (n : nat) : slice s 0 (Z.of_nat n) = firstn n s.
Proof.
  unfold slice, adjust_index.
  change (0 <? 0)%Z with false. cbv iota.
  destruct (Z.ltb_spec (Z.of_nat n) 0); [lia|].
  replace (Z.to_nat (Z.min 0 (Z.of_nat (length s)))) with 0%nat by lia.
  cbn [skipn].
  replace (Z.to_nat (Z.min (Z.of_nat n) (Z.of_nat (length s))
                     - Z.min 0 (Z.of_nat (length s))))
    with (Nat.min n (length s)) by lia.
  destruct (Nat.le_gt_cases n (length s)) as [Hle | Hgt].
  - now rewrite Nat.min_l by lia.
  - rewrite Nat.min_r by lia. rewrite firstn_all. symmetry. apply firstn_all2. lia.
Qed.

(** X9.  The label of a stored plan shows at most the first 100
    characters of its goal: a goal of up to 100 characters is shown in
    full, a longer one is cut after 100 characters and followed by
    three dots, so the label never exceeds 105 characters. *)
Theorem history_title_is_bounded :
  forall goal : str,
    ((length goal <= 100)%nat -> history_title goal = [TARGET] ++ lit " " ++ goal)
    /\ ((100 < length goal)%nat ->
        history_title goal = [TARGET] ++ lit " " ++ firstn 100 goal ++ lit "...")
    /\ (length (history_title goal) <= 105)%nat.
Proof.
  intros goal. unfold history_title.
  change 100%Z with (Z.of_nat 100). rewrite slice_prefix.
  destruct (Z.ltb_spec (Z.of_nat 100) (Z.of_nat (length goal))) as [Hlt | Hge].
  - split; [intros H; lia|]. split; [reflexivity|].
    rewrite !length_app, length_firstn.
    change (length [TARGET]) with 1%nat. change (length (lit " ")) with 1%nat.
    change (length (lit "...")) with 3%nat. lia.
  - split.
    + intros _. rewrite firstn_all2 by lia. now rewrite app_nil_r.
    + split; [intros H; lia|].
      rewrite !length_app, length_firstn.
      change (length [TARGET]) with 1%nat. change (length (lit " ")) with 1%nat.
      change (length (@nil N)) with 0%nat. lia.
Qed.

Lemma history_title_witness :
  (length sample_goal <= 100)%nat
  /\ history_title sample_goal = [TARGET] ++ lit " " ++ sample_goal.
Proof.
  assert (H : (length sample_goal <= 100)%nat) by (vm_compute; lia).
  split; [exact H|].
  exact (proj1 (history_title_is_bounded sample_goal) H).
Defined.

(** One run sends one request: a search when the box holds text and
    the flag is on after the click, the 20 most recent plans otherwise. *)
Lemma history_run_logged (Store : Type)
    (execute : query -> Store -> outcome value * Store)
    (search_query_text : str) (clicked : bool) (flag : option bool)
    (log : list query) (db : Store) :
  exists result db' flag'  qy,
    history_run (logged execute) search_query_text clicked flag (log, db)
    = (result, (log ++ [qy], db'), flag')
    /\ (qy = recent_query 20 \/ qy = search_query search_query_text)
    /\ (if is_search qy then 1 else 0) + armed flag'
       <= (if clicked then 1 else 0) + armed flag.
Proof.
  unfold history_run, load_plans.
  destruct search_query_text as [|c text].
  - cbn [negb andb]. unfold get_recent_plans, logged.
    change (Supabase.limit _ _) with (recent_query 20). cbn [fst snd].
    destruct (execute (recent_query 20) db) as [[data | e] db'];
      do 4 eexists; (split; [reflexivity|]); (split; [now left|]);
      destruct clicked, flag as [[]|]; cbn; lia.
  - cbn [negb andb].
    destruct (search_triggered (if clicked then click_search flag else flag)) eqn:Hon.
    + unfold search_plans_by_goal, logged.
      change (Supabase.order _ _ _) with (search_query (c :: text)). cbn [fst snd].
      destruct (execute (search_query (c :: text)) db) as [[data | e] db'];
        do 4 eexists; (split; [reflexivity|]); (split; [now right|]);
        destruct clicked, flag as [[]|]; cbn in *; try lia; discriminate.
    + unfold get_recent_plans, logged.
      change (Supabase.limit _ _) with (recent_query 20). cbn [fst snd].
      destruct (execute (recent_query 20) db) as [[data | e] db'];
        do 4 eexists; (split; [reflexivity|]); (split; [now left|]);
        destruct clicked, flag as [[]|]; cbn in *; try lia; discriminate.
Qed.

(** X10.  In a session of the history view every run sends exactly one
    request, a search or the listing of the 20 most recent plans, and
    there are never more searches than clicks on "Search" (one more if
    the flag was already on when the session began): a search uses up
    the click, so the run after a search lists the recent plans
    again. *)
Theorem history_session_searches_once_per_click :
  forall (Store : Type) (execute : query -> Store -> outcome value * Store)
         (runs : list (str * bool)) (flag : option bool) (log : list query) (db : Store),
    exists (sent : list query) (flag' : option bool) (db' : Store),
      history_session (logged execute) runs flag (log, db) = (flag', (log ++ sent, db'))
      /\ length sent = length runs
      /\ Forall (fun qy => qy = recent_query 20
                           \/ exists text, qy = search_query text) sent
      /\ length (filter is_search sent) + armed flag' <= clicks runs + armed flag.
Proof.
  intros Store execute runs.
  induction runs as [|[text clicked] runs IH]; intros flag log db.
  - exists [], flag, db. cbn. rewrite app_nil_r. repeat split; try constructor; try lia.
  - destruct (history_run_logged Store execute text clicked flag log db)
      as (result & db1 & flag1 & qy & Hrun & Hq & Hcount).
    destruct (IH flag1 (log ++ [qy]) db1) as (sent & flag' & db' & Hs & Hlen & Hall & Hle).
    exists (qy :: sent), flag', db'.
    cbn [history_session]. rewrite Hrun, Hs.
    split; [now rewrite <- app_assoc|].
    split; [cbn; now rewrite Hlen|].
    split.
    + constructor; [|exact Hall].
      destruct Hq as [-> | ->]; [now left | right; now exists text].
    + unfold clicks in *. cbn [filter snd length].
      destruct (is_search qy), clicked; cbn [length] in *; lia.
Qed.

(* ------------------------------------------------------------------ *)
(** *** Start-up                                                       *)
(* ------------------------------------------------------------------ *)

Lemma environ_get_cases (env : environ) (name : str) :
  (exists v, environ_get env name = Return v)
  \/ environ_get env name = Raise (mkExn KeyError (lit "'" ++ name ++ lit "'")).
Proof.
  induction env as [|[k v] env IH]; simpl; [now right|].
  destruct (str_eqb k name); [left; now exists v | exact IH].
Qed.

(** X11.  The script gets past its configuration exactly when the three
    environment variables are set and both clients are built without an
    exception; otherwise it stops after one message.  A missing Google
    key stops it before the Supabase client is even attempted, and a
    missing Supabase variable is reported by its name, the URL first. *)
Theorem startup_needs_all_three_variables :
  forall (Client : Type) (genai_configure : str -> outcome unit)
         (create_client : str -> str -> outcome Client) (env : environ),
    (forall api_key supabase,
       start genai_configure create_client env = Ready api_key supabase
       <-> (environ_get env (lit "GOOGLE_API_KEY") = Return api_key
            /\ genai_configure api_key = Return tt
            /\ exists url key,
                 environ_get env (lit "SUPABASE_URL") = Return url
                 /\ environ_get env (lit "SUPABASE_KEY") = Return key
                 /\ create_client url key = Return supabase))
    /\ (forall e, environ_get env (lit "GOOGLE_API_KEY") = Raise e ->
          forall other : str -> str -> outcome Client,
            start genai_configure other env = Stopped missing_google_key_msg)
    /\ (forall api_key e,
          environ_get env (lit "GOOGLE_API_KEY") = Return api_key ->
          genai_configure api_key = Return tt ->
          environ_get env (lit "SUPABASE_URL") = Raise e ->
          start genai_configure create_client env
          = Stopped (missing_supabase_prefix ++ lit "'SUPABASE_URL'"
                       ++ missing_supabase_suffix))
    /\ (forall api_key url e,
          environ_get env (lit "GOOGLE_API_KEY") = Return api_key ->
          genai_configure api_key = Return tt ->
          environ_get env (lit "SUPABASE_URL") = Return url ->
          environ_get env (lit "SUPABASE_KEY") = Raise e ->
          start genai_configure create_client env
          = Stopped (missing_supabase_prefix ++ lit "'SUPABASE_KEY'"
                       ++ missing_supabase_suffix)).
Proof.
  intros Client configure create env. split; [|split; [|split]].
  - intros api_key supabase. unfold start, configure_api, configure_supabase. split.
    + destruct (environ_get env (lit "GOOGLE_API_KEY")) as [k | e]; cbn [bind];
        [|destruct (is_KeyError e); discriminate].
      destruct (configure k) as [[] | e] eqn:Hc; cbn [bind];
        [|destruct (is_KeyError e); discriminate].
      destruct (environ_get env (lit "SUPABASE_URL")) as [url | e]; cbn [bind];
        [|destruct (is_KeyError e); discriminate].
      destruct (environ_get env (lit "SUPABASE_KEY")) as [key | e]; cbn [bind];
        [|destruct (is_KeyError e); discriminate].
      destruct (create url key) as [sb | e] eqn:Hs;
        [|destruct (is_KeyError e); discriminate].
      intros H; inversion H; subst.
      split; [reflexivity|]. split; [exact Hc|]. now exists url, key.
    + intros (Hk & Hc & url & key & Hu & Hkey & Hs).
      rewrite Hk. cbn [bind]. rewrite Hc. cbn [bind].
      rewrite Hu. cbn [bind]. rewrite Hkey. cbn [bind]. now rewrite Hs.
  - intros e He other. unfold start, configure_api.
    destruct (environ_get_cases env (lit "GOOGLE_API_KEY")) as [[v Hv] | Hr];
      [congruence|].
    rewrite Hr. reflexivity.
  - intros api_key e Hk Hc Hu. unfold start, configure_api, configure_supabase.
    rewrite Hk. cbn [bind]. rewrite Hc. cbn [bind].
    destruct (environ_get_cases env (lit "SUPABASE_URL")) as [[v Hv] | Hr];
      [congruence|].
    rewrite Hr. reflexivity.
  - intros api_key url e Hk Hc Hu Hkey. unfold start, configure_api, configure_supabase.
    rewrite Hk. cbn [bind]. rewrite Hc. cbn [bind]. rewrite Hu. cbn [bind].
    destruct (environ_get_cases env (lit "SUPABASE_KEY")) as [[v Hv] | Hr];
      [congruence|].
    rewrite Hr. reflexivity.
Qed.

Lemma startup_witness :
  start (fun _ => Return tt) (fun url key => Return (url, key)) sample_environ
  = Stopped (missing_supabase_prefix ++ lit "'SUPABASE_KEY'" ++ missing_supabase_suffix)
  /\ start (fun _ => Return tt) (fun url key => Return (url, key))
       ((lit "SUPABASE_KEY", lit "secret") :: sample_environ)
     = Ready (lit "g-key") (lit "https://db.example", lit "secret").
Proof.
  destruct (startup_needs_all_three_variables (str * str) (fun _ => Return tt)
              (fun url key => Return (url, key)) sample_environ)
    as (_ & _ & _ & Hkey).
  destruct (startup_needs_all_three_variables (str * str) (fun _ => Return tt)
              (fun url key => Return (url, key))
              ((lit "SUPABASE_KEY", lit "secret") :: sample_environ))
    as (Hready & _).
  split.
  - exact (Hkey (lit "g-key") (lit "https://db.example")
             (mkExn KeyError (lit "'SUPABASE_KEY'")) eq_refl eq_refl eq_refl eq_refl).
  - apply Hready. split; [reflexivity|]. split; [reflexivity|].
    exists (lit "https://db.example"), (lit "secret"). repeat split; reflexivity.
Defined.

(* ------------------------------------------------------------------ *)
(** *** A blank response                                               *)
(* ------------------------------------------------------------------ *)

Lemma strip_blank (s : str) : blank s = true -> strip s = [].
Proof.
  intros H. unfold strip. now rewrite lstrip_all_blank.
Qed.

(** X12.  When the model answers with nothing but white space (or with
    nothing at all), the text handed to the decoder is empty and
    [generate_plan] returns the "invalid JSON" failure, with the
    decoder's complaint about the first character and an empty ["raw"]
    entry. *)
Theorem blank_response_is_invalid_json :
  forall (raw : str) (type_error_text : type_error -> str)
         (generate_content : ai_call -> outcome str) (c : N) (goal model_name : str),
    blank raw = true ->
    generate_content (mkCall model_name (build_prompt (c :: goal)) the_config)
      = Return raw ->
    candidate raw = []
    /\ fst (generate_plan Ref.loads type_error_text generate_content (c :: goal) model_name)
       = Return (error_raw_dict
                   (invalid_json_prefix ++ lit "Expecting value: line 1 column 1 (char 0)")
                   []).
Proof.
  intros raw tet ai c goal model_name Hblank Hai.
  assert (Hc : candidate raw = []).
  { unfold candidate. now rewrite strip_blank. }
  split; [exact Hc|].
  rewrite (generate_plan_answer Ref.loads tet ai c goal model_name raw Hai), Hc.
  reflexivity.
Qed.

Lemma blank_response_witness :
  blank (nl ++ lit "  ") = true
  /\ run (nl ++ lit "  ")
     = Return (error_raw_dict
                 (invalid_json_prefix ++ lit "Expecting value: line 1 column 1 (char 0)")
                 []).
Proof.
  split; [reflexivity|].
  exact (proj2 (blank_response_is_invalid_json (nl ++ lit "  ") cpython_type_error_text
                  (answers (nl ++ lit "  ")) (hd 0%N sample_goal) (tl sample_goal)
                  sample_model eq_refl eq_refl)).
Defined.

(* ================================================================== *)
(** ** What stops the display                                          *)
(* ================================================================== *)

Lemma for_each_stops (A B : Type) (f : A -> outcome B) (before after : list A)
    (x : A) (e : exn) :
  (forall a, In a before -> exists b, f a = Return b) ->
  f x = Raise e ->
  for_each f (before ++ x :: after) = Raise e.
Proof.
  intros Hbefore Hx. induction before as [|a before IH].
  - cbn [app for_each]. now rewrite Hx.
  - cbn [app for_each].
    destruct (Hbefore a (or_introl eq_refl)) as [b ->]. cbn [bind].
    rewrite IH; [reflexivity|].
    intros a' Ha'. apply Hbefore. now right.
Qed.

(** X13.  A plan with an element that is not an object shows nothing:
    [display_plan] raises the [AttributeError] of the first such
    element, whatever the other elements are. *)
Theorem display_plan_rejects_non_objects :
  forall (py_repr : value -> str) (float_bool : str -> bool)
         (list_sort : list (value * value) -> outcome (list value))
         (before after : list value) (x : value),
    forallb isinstance_dict before = true ->
    isinstance_dict x = false ->
    display_plan py_repr float_bool list_sort (VList (before ++ x :: after))
    = (Raise (no_attribute_get x), []).
Proof.
  intros py_repr float_bool list_sort before after x Hbefore Hx.
  unfold display_plan.
  assert (Htrue : py_bool float_bool (VList (before ++ x :: after)) = true)
    by (destruct before; reflexivity).
  rewrite Htrue. cbn [negb]. unfold py_sorted. cbn [py_iter bind].
  rewrite (for_each_stops _ _ _ before after x (no_attribute_get x)); [reflexivity| |].
  - intros a Ha. rewrite forallb_forall in Hbefore. specialize (Hbefore a Ha).
    destruct a; try discriminate. cbn [py_get bind]. eexists. reflexivity.
  - destruct x; try discriminate; reflexivity.
Qed.

Lemma display_plan_rejects_non_objects_witness :
  forallb isinstance_dict [task_with_id 1] = true
  /\ isinstance_dict (VInt 5) = false
  /\ forall py_repr float_bool list_sort,
       display_plan py_repr float_bool list_sort
         (VList [task_with_id 1; VInt 5; task_with_id 2])
       = (Raise (mkExn AttributeError (lit "'int' object has no attribute 'get'")), []).
Proof.
  split; [reflexivity|]. split; [reflexivity|].
  intros py_repr float_bool list_sort.
  exact (display_plan_rejects_non_objects py_repr float_bool list_sort
           [task_with_id 1] [task_with_id 2] (VInt 5) eq_refl eq_refl).
Defined.

(** X14.  A task whose [dependencies] entry is [true] or a number other
    than zero stops the display with a [TypeError]: the task records
    that come before it in the order of ids have been shown, the task
    itself and those after it are not. *)
Theorem display_plan_stops_at_bad_dependencies :
  forall (py_repr : value -> str) (float_bool : str -> bool)
         (list_sort : list (value * value) -> outcome (list value))
         (tasks before after : list value) (d : dict) (bad : value),
    forallb has_integer_id tasks = true ->
    sorted id_of tasks = before ++ VDict d :: after ->
    forallb task_record before = true ->
    dict_get d (lit "dependencies") = Some bad ->
    py_bool float_bool bad = true ->
    py_iter bad = Raise (not_iterable bad) ->
    exists shown,
      display_plan py_repr float_bool list_sort (VList tasks)
      = (Raise (not_iterable bad), shown)
      /\ Forall2 shows_dependencies before shown.
Proof.
  intros py_repr float_bool list_sort tasks before after d bad
         Hids Hsorted Hbefore Hdeps Htrue Hiter.
  assert (Hne : tasks <> []).
  { intros ->. cbn in Hsorted. now destruct before. }
  rewrite (display_plan_ids py_repr float_bool list_sort tasks Hids Hne), Hsorted.
  destruct (render_tasks_app py_repr float_bool before (VDict d :: after) Hbefore)
    as (shown & Hall & Hshow).
  exists shown. split; [|exact Hall].
  rewrite Hshow.
  assert (Hbad : render_task py_repr float_bool (VDict d) = Raise (not_iterable bad)).
  { unfold render_task, py_get. cbn [bind]. rewrite Hdeps.
    unfold deps_str. rewrite Htrue, Hiter. reflexivity. }
  cbn [render_tasks]. rewrite Hbad. cbn [fst snd]. now rewrite app_nil_r.
Qed.

Lemma display_plan_stops_at_bad_dependencies_witness :
  sorted id_of [ VDict [(lit "task_id", VInt 2); (lit "dependencies", VInt 7)];
                 task_with_id 1 ]
  = [task_with_id 1] ++ [VDict [(lit "task_id", VInt 2); (lit "dependencies", VInt 7)]]
  /\ forallb task_record [task_with_id 1] = true
  /\ forall py_repr float_bool list_sort,
       exists shown,
         display_plan py_repr float_bool list_sort
           (VList [ VDict [(lit "task_id", VInt 2); (lit "dependencies", VInt 7)];
                    task_with_id 1 ])
         = (Raise (mkExn TypeError (lit "'int' object is not iterable")), shown)
         /\ Forall2 shows_dependencies [task_with_id 1] shown.
Proof.
  split; [reflexivity|]. split; [reflexivity|].
  intros py_repr float_bool list_sort.
  exact (display_plan_stops_at_bad_dependencies py_repr float_bool list_sort
           [ VDict [(lit "task_id", VInt 2); (lit "dependencies", VInt 7)];
             task_with_id 1 ]
           [task_with_id 1] []
           [(lit "task_id", VInt 2); (lit "dependencies", VInt 7)] (VInt 7)
           eq_refl eq_refl eq_refl eq_refl eq_refl eq_refl).
Defined.
